(** * Prototypical network head and persistence hooks (scripts/prototypical.py)

    A shallow embedding of [calc_euclidian_dists] and of the class
    [Prototypical] (its [call], [save] and [load] methods), followed by the
    properties established for them.

    Numbers.  The program works on float32 tensors.  They are idealised here
    as real numbers ([R]): rounding, overflow, underflow and NaN are not
    represented, and a division by zero yields [0] (the convention of [/ 0]
    in [R]) where TensorFlow would yield NaN.

    Tensors.  The two arguments of [call] are TensorFlow tensors, i.e. a shape
    and a row-major buffer ([Tensor]).  After the first reshape every tensor
    has a fixed rank and is a nested list ([mat], [tensor3], [tensor4]).

    Effects.  Layers own variables: a batch-normalisation layer called with
    [training=True] overwrites its moving statistics.  Failures are Python
    exceptions, and an exception does not undo earlier assignments.  Both are
    modelled by the monad [M]: a computation takes the state and returns an
    outcome together with the state it left behind. *)

From Stdlib Require Import String.
From Stdlib Require Import Reals Lra Lia Arith Bool List.
Import ListNotations.
Local Open Scope string_scope.
Local Open Scope list_scope.
Local Open Scope R_scope.

(** ** Exceptions and the state-and-exception monad *)

Inductive error : Type :=
| InvalidArgumentError (op : string)  (* tf.errors.InvalidArgumentError raised by [op] *)
| IndexError                           (* tuple index out of range *)
| RecursionError                       (* maximum recursion depth exceeded *)
| NotFoundError (path : string).       (* no file at [path] *)

Definition result (A : Type) : Type := (error + A)%type.

Definition M (S A : Type) : Type := S -> result A * S.

Definition ret {S A} (a : A) : M S A := fun s => (inr a, s).

Definition raise {S A} (e : error) : M S A := fun s => (inl e, s).

Definition bind {S A B} (c : M S A) (k : A -> M S B) : M S B :=
  fun s => match c s with
           | (inr a, s') => k a s'
           | (inl e, s') => (inl e, s')
           end.

Definition get {S} : M S S := fun s => (inr s, s).

Definition put {S} (s : S) : M S unit := fun _ => (inr tt, s).

(** A pure operation that may raise. *)
Definition lift {S A} (r : result A) : M S A := fun s => (r, s).

Declare Scope monad_scope.
Delimit Scope monad_scope with monad.
Notation "x <- c ;; k" := (bind c (fun x => k))
  (at level 61, c at next level, right associativity) : monad_scope.
Notation "'let*' x := r 'in' k" :=
  (match r with inl e => inl e | inr x => k end)
  (at level 61, x name, r at next level, right associativity) : monad_scope.

Local Open Scope monad_scope.

(** ** Numeric helpers over lists *)

Abbreviation vec := (list R) (only parsing).
Abbreviation mat := (list (list R)) (only parsing).
Abbreviation tensor3 := (list (list (list R))) (only parsing).
Abbreviation tensor4 := (list (list (list (list R)))) (only parsing).

(** [tf.reduce_sum] over a whole rank-1 tensor. *)
Definition reduce_sum (l : vec) : R := fold_right Rplus 0 l.

(** [tf.reduce_mean] over a whole rank-1 tensor. *)
Definition reduce_mean (l : vec) : R := reduce_sum l / INR (length l).

(** Zip two lists of the same length; TensorFlow rejects incompatible
    dimensions. *)
Fixpoint zip_exact {A B C} (opname : string) (f : A -> B -> result C)
  (l1 : list A) (l2 : list B) : result (list C) :=
  match l1, l2 with
  | [], [] => inr []
  | a :: t1, b :: t2 =>
      let* c := f a b in
      let* t := zip_exact opname f t1 t2 in
      inr (c :: t)
  | _, _ => inl (InvalidArgumentError opname)
  end.

(** A binary element-wise operation along the last axis, with TensorFlow's
    broadcasting rule: equal sizes, or one of them of size 1. *)
Definition broadcast_last (opname : string) (f : R -> R -> R) (u v : vec)
  : result vec :=
  if Nat.eqb (length u) (length v) then inr (map (fun p => f (fst p) (snd p)) (combine u v))
  else if Nat.eqb (length u) 1 then inr (map (fun b => f (hd 0 u) b) v)
  else if Nat.eqb (length v) 1 then inr (map (fun a => f a (hd 0 v)) u)
  else inl (InvalidArgumentError opname).

(** Element-wise binary operation on rank-3 tensors whose two leading
    dimensions agree. *)
Definition elementwise3 (opname : string) (f : R -> R -> R) (a b : tensor3)
  : result tensor3 :=
  zip_exact opname (zip_exact opname (broadcast_last opname f)) a b.

(** [tf.expand_dims(x, 1)]: [n, d] becomes [n, 1, d]. *)
Definition expand_dims_1 (x : mat) : tensor3 := map (fun r => [r]) x.

(** [tf.expand_dims(y, 0)]: [m, d] becomes [1, m, d]. *)
Definition expand_dims_0 (y : mat) : tensor3 := [y].

(** Tiling along one axis: [k] copies, one after the other. *)
Definition tile1 {A} (k : nat) (l : list A) : list A := concat (repeat l k).

(** [tf.tile(t, [k0, k1, k2])] on a rank-3 tensor. *)
Definition tile3 (k0 k1 k2 : nat) (t : tensor3) : tensor3 :=
  tile1 k0 (map (fun m => tile1 k1 (map (tile1 k2) m)) t).

(** [tf.math.pow(t, 2)] on a rank-3 tensor. *)
Definition pow2_3 (t : tensor3) : tensor3 := map (map (map (fun r => r ^ 2))) t.

(** [tf.reduce_mean(t, 2)] on a rank-3 tensor. *)
Definition reduce_mean_axis2 (t : tensor3) : mat := map (map reduce_mean) t.

(** ** calc_euclidian_dists (lines 9-24) *)

Definition calc_euclidian_dists (x y : mat) : result mat :=
  let n := length x in
  let m := length y in
  let x := tile3 1 m 1 (expand_dims_1 x) in
  let y := tile3 n 1 1 (expand_dims_0 y) in
  let* d := elementwise3 "Sub" Rminus x y in
  inr (reduce_mean_axis2 (pow2_3 d)).

(** Squared difference of two rows, averaged: one entry of the matrix
    that [calc_euclidian_dists] returns. *)
Definition entry (u v : vec) : R :=
  reduce_mean (map (fun r => r ^ 2)
                 (map (fun p => fst p - snd p) (combine u v))).

(** The sum of [f k] for [k < n], used to state what the code computes. *)
Fixpoint big_sum (n : nat) (f : nat -> R) : R :=
  match n with
  | O => 0
  | S k => big_sum k f + f k
  end.

(** The mean over [d] feature dimensions of the squared differences of two
    rows, as the specification words it. *)
Definition mean_sq_diff (d : nat) (u v : vec) : R :=
  big_sum d (fun k => (nth k u 0 - nth k v 0) ^ 2) / INR d.

(** ** Tensors as received by [call], and reshapes *)

Record Tensor : Type := mkTensor { shape : list nat; data : vec }.

(** Number of elements of a shape. *)
Definition numel (sh : list nat) : nat := fold_right Nat.mul 1%nat sh.

(** A tensor is well formed when its buffer holds exactly [numel shape]
    elements. *)
Definition wf_tensor (t : Tensor) : Prop := length (data t) = numel (shape t).

(** [t.shape[i]]; indexing past the rank raises IndexError. *)
Definition shape_at (t : Tensor) (i : nat) : result nat :=
  match nth_error (shape t) i with
  | Some d => inr d
  | None => inl IndexError
  end.

(** [l[i]] on a Python list. *)
Definition index {A} (l : list A) (i : nat) : result A :=
  match nth_error l i with
  | Some a => inr a
  | None => inl IndexError
  end.

(** Assignment through a reference held at position [i] of a list. *)
Fixpoint list_update {A} (i : nat) (a : A) (l : list A) : list A :=
  match l, i with
  | [], _ => []
  | _ :: t, O => a :: t
  | b :: t, S j => b :: list_update j a t
  end.

(** [count] consecutive chunks of [size] elements (row-major splitting). *)
Fixpoint chunk {A} (count size : nat) (l : list A) : list (list A) :=
  match count with
  | O => []
  | S k => firstn size l :: chunk k size (skipn size l)
  end.

(** [tf.reshape(t, [d0, d1, d2, d3])] of an input tensor. *)
Definition reshape4 (t : Tensor) (d0 d1 d2 d3 : nat) : result tensor4 :=
  if Nat.eqb (numel (shape t)) (d0 * d1 * d2 * d3)
  then inr (map (fun img => map (chunk d2 d3) (chunk d1 (d2 * d3) img))
                (chunk d0 (d1 * d2 * d3) (data t)))
  else inl (InvalidArgumentError "Reshape").

(** [tf.reshape(z, [d0, d1, d2])] of a rank-2 tensor. *)
Definition reshape3 (z : mat) (d0 d1 d2 : nat) : result tensor3 :=
  if Nat.eqb (length (concat z)) (d0 * d1 * d2)
  then inr (map (chunk d1 d2) (chunk d0 (d1 * d2) (concat z)))
  else inl (InvalidArgumentError "Reshape").

(** [tf.reshape(z, [d0, d1, -1])]: the last dimension is inferred, which
    needs [d0 * d1] to be non-zero and to divide the number of elements. *)
Definition reshape3_infer (z : mat) (d0 d1 : nat) : result tensor3 :=
  let known := (d0 * d1)%nat in
  if Nat.eqb known 0 then inl (InvalidArgumentError "Reshape")
  else if Nat.eqb (length (concat z) mod known) 0
       then reshape3 z d0 d1 (length (concat z) / known)
       else inl (InvalidArgumentError "Reshape").

(** [z.shape[-1]] of a rank-2 tensor held as a list of rows.  (With no row
    at all the nested list has forgotten it; TensorFlow's means over such an
    empty axis are NaN, outside the real-valued model.) *)
Definition last_dim (z : mat) : nat := length (hd [] z).

(** [tf.math.reduce_mean(t, axis=1)] on a rank-3 tensor [a, b, dim]. *)
Definition reduce_mean_axis1 (dim : nat) (t : tensor3) : mat :=
  map (fun rows => map (fun k => reduce_mean (map (fun r => nth k r 0) rows))
                       (seq 0 dim)) t.

(** ** The Keras layers used by the encoder

    Modelled from the Keras documentation of [Conv2D], [MaxPool2D],
    [BatchNormalization] and [Flatten] with the arguments given in
    [__init__]; images are [rows, columns, channels]. *)

Definition relu (r : R) : R := Rmax r 0.

Definition dot (u v : vec) : R :=
  reduce_sum (map (fun p => fst p * snd p) (combine u v)).

(** Access with one cell of zero padding in front ("same" padding of a
    3-wide window leaves one cell on each side; past the end [nth] already
    yields the default). *)
Definition pad_nth {A} (d : A) (p : nat) (l : list A) : A :=
  match p with
  | O => d
  | S q => nth q l d
  end.

(** Conv2D(filters=64, kernel_size=3, padding="same", activation='relu').
    [kernel] has shape [3, 3, channels_in, filters] and [bias] shape
    [filters]. *)
Record Conv2D : Type := mkConv2D {
  filters : nat;
  kernel : list (list (list vec));
  bias : vec
}.

Definition conv_at (layer : Conv2D) (img : tensor3) (i j co : nat) : R :=
  relu (big_sum 3 (fun di => big_sum 3 (fun dj =>
          dot (pad_nth [] (j + dj) (pad_nth [] (i + di) img))
              (map (fun col => nth co col 0)
                   (nth dj (nth di (kernel layer) []) []))))
        + nth co (bias layer) 0).

Definition Conv2D_call (layer : Conv2D) (x : tensor4) : tensor4 :=
  map (fun img =>
         map (fun i =>
                map (fun j => map (conv_at layer img i j) (seq 0 (filters layer)))
                    (seq 0 (length (hd [] img))))
             (seq 0 (length img))) x.

(** MaxPool2D(): 2x2 windows, stride 2, "valid" padding. *)
Inductive MaxPool2D : Type := mkMaxPool2D.

Fixpoint pairs {A} (l : list A) : list (A * A) :=
  match l with
  | a :: b :: t => (a, b) :: pairs t
  | _ => []
  end.

Definition max_pixel (p q : vec) : vec :=
  map (fun ab => Rmax (fst ab) (snd ab)) (combine p q).

Definition pool_rows (r1 r2 : mat) : mat :=
  map (fun ab => max_pixel (max_pixel (fst (fst ab)) (snd (fst ab)))
                           (max_pixel (fst (snd ab)) (snd (snd ab))))
      (combine (pairs r1) (pairs r2)).

Definition MaxPool2D_call (layer : MaxPool2D) (x : tensor4) : tensor4 :=
  map (fun img => map (fun rr => pool_rows (fst rr) (snd rr)) (pairs img)) x.

(** BatchNormalization(): axis=-1, momentum=0.99, epsilon=0.001. *)
Record BatchNormalization : Type := mkBatchNormalization {
  gamma : vec;
  beta : vec;
  moving_mean : vec;
  moving_variance : vec
}.

Definition momentum : R := 99 / 100.
Definition epsilon : R := 1 / 1000.

(** All the values of channel [ch] in a batch [N, H, W, C]. *)
Definition channel (ch : nat) (x : tensor4) : vec :=
  flat_map (fun img => flat_map (fun row => map (fun px => nth ch px 0) row) img) x.

Definition batch_mean (x : tensor4) (ch : nat) : R := reduce_mean (channel ch x).

Definition batch_variance (x : tensor4) (ch : nat) : R :=
  reduce_mean (map (fun v => (v - batch_mean x ch) ^ 2) (channel ch x)).

(** gamma * (x - mean) / sqrt(var + epsilon) + beta, channel by channel. *)
Definition normalize (layer : BatchNormalization) (mean var : vec) (x : tensor4)
  : tensor4 :=
  map (map (map (fun px =>
    map (fun cv => nth (fst cv) (gamma layer) 0 * (snd cv - nth (fst cv) mean 0)
                   / sqrt (nth (fst cv) var 0 + epsilon)
                   + nth (fst cv) (beta layer) 0)
        (combine (seq 0 (length px)) px)))) x.

(** moving = moving * momentum + batch * (1 - momentum). *)
Definition moving_update (moving batch : vec) : vec :=
  map (fun mb => fst mb * momentum + snd mb * (1 - momentum)) (combine moving batch).

(** The layer called on [x]: its output and the layer as the call leaves
    it.  In training mode the batch statistics normalise the output and are
    folded into the moving statistics; in inference mode the moving
    statistics normalise the output and nothing is assigned. *)
Definition BatchNormalization_call (layer : BatchNormalization) (x : tensor4)
  (training : bool) : tensor4 * BatchNormalization :=
  if training then
    let mean := map (batch_mean x) (seq 0 (length (gamma layer))) in
    let var := map (batch_variance x) (seq 0 (length (gamma layer))) in
    (normalize layer mean var x,
     {| gamma := gamma layer;
        beta := beta layer;
        moving_mean := moving_update (moving_mean layer) mean;
        moving_variance := moving_update (moving_variance layer) var |})
  else (normalize layer (moving_mean layer) (moving_variance layer) x, layer).

(** Flatten(): every image becomes one row, in row-major order. *)
Definition flatten_layer (x : tensor4) : mat :=
  map (fun img => concat (concat img)) x.

(** ** Helpers of the loss head *)

(** [np.arange(n)]. *)
Definition arange (n : nat) : list nat := seq 0 n.

(** [a[:, np.newaxis]]: a vector becomes a column. *)
Definition newaxis_col {A} (l : list A) : list (list A) := map (fun k => [k]) l.

(** [np.tile(t, (k0, k1))] and [tf.tile(t, [k0, k1])] on rank 2. *)
Definition tile2 {A} (k0 k1 : nat) (t : list (list A)) : list (list A) :=
  tile1 k0 (map (tile1 k1) t).

(** [tf.one_hot(i, depth)] cast to float. *)
Definition one_hot (depth i : nat) : vec :=
  map (fun j => if Nat.eqb j i then 1 else 0) (seq 0 depth).

(** [tf.nn.log_softmax] along the last axis: logits - log(sum(exp(logits))). *)
Definition log_softmax (logits : vec) : vec :=
  map (fun v => v - ln (reduce_sum (map exp logits))) logits.

(** [tf.argmax] along the last axis; of equal maxima the smallest index is
    returned. *)
Fixpoint argmax_from (best_i : nat) (best : R) (i : nat) (l : vec) : nat :=
  match l with
  | [] => best_i
  | v :: t => if Rlt_dec best v then argmax_from i v (S i) t
              else argmax_from best_i best (S i) t
  end.

Definition argmax (l : vec) : nat :=
  match l with
  | [] => O
  | v :: t => argmax_from O v 1 t
  end.

(** [tf.cast(tf.equal(a, b), tf.float32)] on rank-2 integer tensors. *)
Definition equal2 (a b : list (list nat)) : result mat :=
  zip_exact "Equal"
    (zip_exact "Equal" (fun p q => inr (if Nat.eqb p q then 1 else 0))) a b.

(** ** class Prototypical *)

Record Prototypical : Type := mkPrototypical {
  w : nat;
  h : nat;
  c : nat;
  conv_layers : list Conv2D;
  max_pool_layers : list MaxPool2D;
  batch_norm_layers : list BatchNormalization
}.

(** The variables of a freshly built layer: [glorot] is the draw of the
    kernel initialiser; bias and beta are zeros, gamma and the moving
    variance ones, the moving mean zeros. *)
Definition new_Conv2D (glorot : list (list (list vec))) : Conv2D :=
  {| filters := 64; kernel := glorot; bias := repeat 0 64 |}.

Definition new_BatchNormalization : BatchNormalization :=
  {| gamma := repeat 1 64; beta := repeat 0 64;
     moving_mean := repeat 0 64; moving_variance := repeat 1 64 |}.

(** [__init__] (lines 31-61); [n_support] and [n_query] are accepted and not
    stored.  Keras creates the variables of a layer at its first call; the
    record holds them from the start, [glorot0] .. [glorot3] being the four
    kernel draws. *)
Definition init (glorot0 glorot1 glorot2 glorot3 : list (list (list vec)))
  (n_support n_query w h c : nat) : Prototypical :=
  {| w := w; h := h; c := c;
     conv_layers := [new_Conv2D glorot0; new_Conv2D glorot1;
                     new_Conv2D glorot2; new_Conv2D glorot3];
     max_pool_layers := [mkMaxPool2D; mkMaxPool2D; mkMaxPool2D; mkMaxPool2D];
     batch_norm_layers := [new_BatchNormalization; new_BatchNormalization;
                           new_BatchNormalization; new_BatchNormalization] |}.

(** The assignment made by [self.batch_norm_layers[i]] when it updates its
    own variables. *)
Definition set_batch_norm_layer (self : Prototypical) (i : nat)
  (bn : BatchNormalization) : Prototypical :=
  {| w := w self; h := h self; c := c self;
     conv_layers := conv_layers self;
     max_pool_layers := max_pool_layers self;
     batch_norm_layers := list_update i bn (batch_norm_layers self) |}.

(** [for i in range(...)] threading [x] through the body. *)
Fixpoint for_range {S A} (idxs : list nat) (body : nat -> A -> M S A) (x : A)
  : M S A :=
  match idxs with
  | [] => ret x
  | i :: rest => x' <- body i x ;; for_range rest body x'
  end.

(** [self.batch_norm_layers[i](x, training=...)]: the layer is looked up,
    called, and keeps what the call assigned. *)
Definition call_batch_norm (i : nat) (x : tensor4) (training : bool)
  : M Prototypical tensor4 :=
  self <- get ;;
  bn <- lift (index (batch_norm_layers self) i) ;;
  _ <- put (set_batch_norm_layer self i (snd (BatchNormalization_call bn x training))) ;;
  ret (fst (BatchNormalization_call bn x training)).

(** [self.conv_layers[i](x)] and [self.max_pool_layers[i](x)]. *)
Definition call_conv (i : nat) (x : tensor4) : M Prototypical tensor4 :=
  self <- get ;;
  conv <- lift (index (conv_layers self) i) ;;
  ret (Conv2D_call conv x).

Definition call_max_pool (i : nat) (x : tensor4) : M Prototypical tensor4 :=
  self <- get ;;
  pool <- lift (index (max_pool_layers self) i) ;;
  ret (MaxPool2D_call pool x).

(** [call] (lines 63-105).  The result is the pair [(loss, acc)]. *)
Definition call (support query : Tensor) (training : bool)
  : M Prototypical (R * R) :=
  n_class <- lift (shape_at support 0) ;;
  n_support <- lift (shape_at support 1) ;;
  n_query <- lift (shape_at query 1) ;;
  let y := tile2 1 n_query (newaxis_col (arange n_class)) in
  let y_onehot := map (map (one_hot n_class)) y in
  let target_inds := tile2 1 n_query (chunk n_class 1 (arange n_class)) in
  self <- get ;;
  x <- lift (reshape4 support (n_class * n_support) (w self) (h self) (c self)) ;;
  self <- get ;;
  x <- for_range (arange (length (conv_layers self)))
         (fun i x =>
            x <- call_conv i x ;;
            x <- call_max_pool i x ;;
            call_batch_norm i x true) x ;;
  let z_support := flatten_layer x in
  z_prototypes <- lift (reshape3 z_support n_class n_support (last_dim z_support)) ;;
  let z_prototypes := reduce_mean_axis1 (last_dim z_support) z_prototypes in
  self <- get ;;
  x <- lift (reshape4 query (n_class * n_query) (w self) (h self) (c self)) ;;
  self <- get ;;
  x <- for_range (arange (length (conv_layers self)))
         (fun i x =>
            x <- call_conv i x ;;
            x <- call_max_pool i x ;;
            call_batch_norm i x false) x ;;
  let z_query := flatten_layer x in
  dists <- lift (calc_euclidian_dists z_query z_prototypes) ;;
  let log_p_y := map (fun row => log_softmax (map Ropp row)) dists in
  log_p_y <- lift (reshape3_infer log_p_y n_class n_query) ;;
  prod <- lift (elementwise3 "Mul" Rmult y_onehot log_p_y) ;;
  let loss := - reduce_mean (concat (map (map reduce_sum) prod)) in
  eq <- lift (equal2 (map (map argmax) log_p_y) y) ;;
  let acc := reduce_mean (concat eq) in
  ret (loss, acc).

(** ** Persistence (lines 107-130) *)

(** What a weights file holds: the variables of the layers. *)
Record Weights : Type := mkWeights {
  conv_weights : list Conv2D;
  batch_norm_weights : list BatchNormalization
}.

(** The files, by path. *)
Definition FileSystem : Type := string -> option Weights.

Definition write_file (fs : FileSystem) (path : string) (wts : Weights)
  : FileSystem :=
  fun p => if String.eqb p path then Some wts else fs p.

(** The state seen by [save] and [load]: the instance and the files. *)
Definition Session : Type := (Prototypical * FileSystem)%type.

Definition get_weights (self : Prototypical) : Weights :=
  {| conv_weights := conv_layers self;
     batch_norm_weights := batch_norm_layers self |}.

(** [keras.Model.save], the inherited method that [Prototypical.save]
    overrides: it writes the weights to the file. *)
Definition Model_save (model_path : string) : M Session unit :=
  fun s => (inr tt, (fst s, write_file (snd s) model_path (get_weights (fst s)))).

(** [save] (lines 107-117).  The body is the single call
    [self.save(model_path)], which resolves to this very method.  [depth] is
    the number of frames the interpreter still allows; when none is left the
    call raises RecursionError. *)
Fixpoint save (depth : nat) (model_path : string) : M Session unit :=
  match depth with
  | O => raise RecursionError
  | S d => save d model_path
  end.

(** The same method without a bound on the stack: [save] returns only if the
    call it makes returns.  There is no other rule. *)
Inductive save_returns (model_path : string) : Session -> Session -> Prop :=
| save_returns_call : forall s s',
    save_returns model_path s s' -> save_returns model_path s s'.

(** Do two lists of variables have the same shapes? *)
Definition same_shape_vec (u v : vec) : bool := Nat.eqb (length u) (length v).

Fixpoint same_shape_list {A} (same : A -> A -> bool) (l1 l2 : list A) : bool :=
  match l1, l2 with
  | [], [] => true
  | a :: t1, b :: t2 => same a b && same_shape_list same t1 t2
  | _, _ => false
  end.

Definition same_shape_conv (a b : Conv2D) : bool :=
  same_shape_list (same_shape_list (same_shape_list same_shape_vec))
    (kernel a) (kernel b)
  && same_shape_vec (bias a) (bias b).

Definition same_shape_bn (a b : BatchNormalization) : bool :=
  same_shape_vec (gamma a) (gamma b) && same_shape_vec (beta a) (beta b)
  && same_shape_vec (moving_mean a) (moving_mean b)
  && same_shape_vec (moving_variance a) (moving_variance b).

(** [keras.Model.load_weights]: the file must exist and its variables must
    have the shapes of the instance's variables; they are then assigned. *)
Definition load_weights (model_path : string) : M Session unit :=
  s <- get ;;
  match snd s model_path with
  | None => raise (NotFoundError model_path)
  | Some wts =>
      if same_shape_list same_shape_conv (conv_weights wts) (conv_layers (fst s))
         && same_shape_list same_shape_bn (batch_norm_weights wts)
              (batch_norm_layers (fst s))
      then put ({| w := w (fst s); h := h (fst s); c := c (fst s);
                   conv_layers :=
                     map (fun lf => {| filters := filters (fst lf);
                                       kernel := kernel (snd lf);
                                       bias := bias (snd lf) |})
                         (combine (conv_layers (fst s)) (conv_weights wts));
                   max_pool_layers := max_pool_layers (fst s);
                   batch_norm_layers := batch_norm_weights wts |}, snd s)
      else raise (InvalidArgumentError "load_weights")
  end.

(** [load] (lines 119-130). *)
Definition load (model_path : string) : M Session unit :=
  load_weights model_path.

(** ** The two halves of [call]

    [forward_dists] is [call] up to line 94 (the shapes read off the
    arguments and the distance matrix); [head] is the rest (lines 67-68 and
    96-105), which no longer touches the layers. *)

Definition forward_dists (support query : Tensor)
  : M Prototypical (nat * nat * mat) :=
  n_class <- lift (shape_at support 0) ;;
  n_support <- lift (shape_at support 1) ;;
  n_query <- lift (shape_at query 1) ;;
  self <- get ;;
  x <- lift (reshape4 support (n_class * n_support) (w self) (h self) (c self)) ;;
  self <- get ;;
  x <- for_range (arange (length (conv_layers self)))
         (fun i x =>
            x <- call_conv i x ;;
            x <- call_max_pool i x ;;
            call_batch_norm i x true) x ;;
  let z_support := flatten_layer x in
  z_prototypes <- lift (reshape3 z_support n_class n_support (last_dim z_support)) ;;
  let z_prototypes := reduce_mean_axis1 (last_dim z_support) z_prototypes in
  self <- get ;;
  x <- lift (reshape4 query (n_class * n_query) (w self) (h self) (c self)) ;;
  self <- get ;;
  x <- for_range (arange (length (conv_layers self)))
         (fun i x =>
            x <- call_conv i x ;;
            x <- call_max_pool i x ;;
            call_batch_norm i x false) x ;;
  let z_query := flatten_layer x in
  dists <- lift (calc_euclidian_dists z_query z_prototypes) ;;
  ret (n_class, n_query, dists).

Definition head (n_class n_query : nat) (dists : mat) : result (R * R) :=
  let y := tile2 1 n_query (newaxis_col (arange n_class)) in
  let y_onehot := map (map (one_hot n_class)) y in
  let log_p_y := map (fun row => log_softmax (map Ropp row)) dists in
  let* log_p_y := reshape3_infer log_p_y n_class n_query in
  let* prod := elementwise3 "Mul" Rmult y_onehot log_p_y in
  let loss := - reduce_mean (concat (map (map reduce_sum) prod)) in
  let* eq := equal2 (map (map argmax) log_p_y) y in
  let acc := reduce_mean (concat eq) in
  inr (loss, acc).

(** ** What the specification says of the loss and of the accuracy

    Queries are numbered [q < n_class * n_query] in the order of the rows of
    the distance matrix; query [i] of class block [k] is [q = k * n_query + i],
    so the true class of [q] is [q / n_query]. *)

(** Softmax probability of class [j] under [logits]. *)
Definition softmax_prob (logits : vec) (j : nat) : R :=
  exp (nth j logits 0) / big_sum (length logits) (fun k => exp (nth k logits 0)).

(** Log-probability that query [q] has class [j]: the logits are the negated
    distances of [q] to the prototypes. *)
Definition log_prob (dists : mat) (q j : nat) : R :=
  ln (softmax_prob (map Ropp (nth q dists [])) j).

(** Negative mean, over all queries, of the log-probability of the true
    class. *)
Definition nll_spec (n_class n_query : nat) (dists : mat) : R :=
  - (big_sum (n_class * n_query) (fun q => log_prob dists q (q / n_query))
     / INR (n_class * n_query)).

(** [j] is the first index at which [l] is maximal. *)
Definition is_first_argmax (l : vec) (j : nat) : Prop :=
  (j < length l)%nat
  /\ (forall k, (k < length l)%nat -> nth k l 0 <= nth j l 0)
  /\ (forall k, (k < j)%nat -> nth k l 0 < nth j l 0).

(** The class predicted for query [q], and whether it is the true one. *)
Definition predicted (dists : mat) (q : nat) : nat :=
  argmax (log_softmax (map Ropp (nth q dists []))).

Definition is_correct (n_query : nat) (dists : mat) (q : nat) : bool :=
  Nat.eqb (predicted dists q) (q / n_query).

Definition n_correct (n_class n_query : nat) (dists : mat) : nat :=
  length (filter (is_correct n_query dists) (seq 0 (n_class * n_query))).

(** Fraction of the queries whose predicted class is the true one. *)
Definition accuracy_spec (n_class n_query : nat) (dists : mat) : R :=
  INR (n_correct n_class n_query dists) / INR (n_class * n_query).

(** ** The encoder as the specification describes it (section 4.1)

    Four blocks of convolution, max-pooling and batch normalisation, the
    latter driven by a training-mode flag, then the flattening. *)

Definition encoder (training_mode : bool) (x : tensor4) : M Prototypical mat :=
  self <- get ;;
  x <- for_range (arange (length (conv_layers self)))
         (fun i x =>
            x <- call_conv i x ;;
            x <- call_max_pool i x ;;
            call_batch_norm i x training_mode) x ;;
  ret (flatten_layer x).


(** ** The block loop as a function of the layers

    What one pass of the loop computes from the three lists of layers: the
    output of the last block and the batch-normalisation layers as the pass
    leaves them. *)
Fixpoint run_blocks (training : bool) (convs : list Conv2D)
  (pools : list MaxPool2D) (bns : list BatchNormalization) (x : tensor4)
  : tensor4 * list BatchNormalization :=
  match convs, pools, bns with
  | conv :: convs', pool :: pools', bn :: bns' =>
      let r := BatchNormalization_call bn
                 (MaxPool2D_call pool (Conv2D_call conv x)) training in
      let rest := run_blocks training convs' pools' bns' (fst r) in
      (fst rest, snd r :: snd rest)
  | _, _, _ => (x, bns)
  end.

(** The instance with its batch-normalisation layers replaced. *)
Definition with_batch_norm_layers (self : Prototypical)
  (bns : list BatchNormalization) : Prototypical :=
  {| w := w self; h := h self; c := c self;
     conv_layers := conv_layers self;
     max_pool_layers := max_pool_layers self;
     batch_norm_layers := bns |}.

(** The three lists of layers are indexed together. *)
Definition wf_model (self : Prototypical) : Prop :=
  length (max_pool_layers self) = length (conv_layers self)
  /\ length (batch_norm_layers self) = length (conv_layers self).

(** A batch of [n] images of [a] rows, [b] columns and [ch] channels. *)
Definition has_shape4 (n a b ch : nat) (x : tensor4) : Prop :=
  length x = n
  /\ Forall (fun img => length img = a
             /\ Forall (fun row => length row = b
                        /\ Forall (fun px => length px = ch) row) img) x.

(** Rows, columns and channels of an image after the blocks. *)
Fixpoint out_dims (convs : list Conv2D) (a b ch : nat) : nat * nat * nat :=
  match convs with
  | [] => (a, b, ch)
  | conv :: convs' => out_dims convs' (a / 2) (b / 2) (filters conv)
  end.

(** Length of an embedding. *)
Definition embedding_dim (self : Prototypical) : nat :=
  let d := out_dims (conv_layers self) (w self) (h self) (c self) in
  (fst (fst d) * snd (fst d) * snd d)%nat.

(** The support images through the blocks in training mode, and the query
    images through the blocks in inference mode, the batch-normalisation
    layers being those the support pass left. *)
Definition support_pass (self : Prototypical) (support : Tensor)
  (n_class n_support : nat) : tensor4 * list BatchNormalization :=
  run_blocks true (conv_layers self) (max_pool_layers self)
    (batch_norm_layers self)
    (map (fun img => map (chunk (h self) (c self))
                         (chunk (w self) (h self * c self) img))
         (chunk (n_class * n_support) (w self * h self * c self) (data support))).

Definition query_pass (self : Prototypical) (bns : list BatchNormalization)
  (query : Tensor) (n_class n_query : nat) : tensor4 :=
  fst (run_blocks false (conv_layers self) (max_pool_layers self) bns
         (map (fun img => map (chunk (h self) (c self))
                              (chunk (w self) (h self * c self) img))
              (chunk (n_class * n_query) (w self * h self * c self) (data query)))).

(** The prototypes of an episode: the class means of the support
    embeddings; and its query embeddings. *)
Definition prototypes (self : Prototypical) (support : Tensor)
  (n_class n_support : nat) : list (list R) :=
  reduce_mean_axis1 (embedding_dim self)
    (chunk n_class n_support
       (flatten_layer (fst (support_pass self support n_class n_support)))).

Definition query_embeddings (self : Prototypical) (support query : Tensor)
  (n_class n_support n_query : nat) : list (list R) :=
  flatten_layer
    (query_pass self (snd (support_pass self support n_class n_support))
       query n_class n_query).

(** A support or query tensor of an episode: [k] classes of [n] images of
    the size the instance was built for. *)
Definition episode_tensor (self : Prototypical) (k n : nat) (t : Tensor) : Prop :=
  shape t = [k; n; w self; h self; c self] /\ wf_tensor t.

(** ** A small episode

    One class, one support image and one query image of 16 by 16 pixels and
    one channel, on an instance whose kernels are all zero. *)

Definition zero_kernel (channels_in : nat) : list (list (list (list R))) :=
  repeat (repeat (repeat (repeat 0 64) channels_in) 3) 3.

Definition example_model : Prototypical :=
  init (zero_kernel 1) (zero_kernel 64) (zero_kernel 64) (zero_kernel 64)
       1 1 16 16 1.

Definition example_support : Tensor := mkTensor [1; 1; 16; 16; 1]%nat (repeat 0 256).

Definition example_query : Tensor := mkTensor [1; 1; 16; 16; 1]%nat (repeat 1 256).

(** ** A save followed by a load

    The script [model.save(path); fresh.load(path)]: the instance of the
    session is first the saved model, then the freshly constructed one. *)

Definition empty_files : FileSystem := fun _ => None.

Definition save_then_load (depth : nat) (model_path : string)
  (fresh : Prototypical) : M Session unit :=
  _ <- save depth model_path ;;
  s <- get ;;
  _ <- put (fresh, snd s) ;;
  load model_path.

(** The same script with the inherited [keras.Model.save] in place of the
    override. *)
Definition Model_save_then_load (model_path : string) (fresh : Prototypical)
  : M Session unit :=
  _ <- Model_save model_path ;;
  s <- get ;;
  _ <- put (fresh, snd s) ;;
  load model_path.

(** An instance constructed with the arguments of [example_model], its
    kernels drawn afresh. *)
Definition one_kernel (channels_in : nat) : list (list (list (list R))) :=
  repeat (repeat (repeat (repeat 1 64) channels_in) 3) 3.

Definition example_fresh : Prototypical :=
  init (one_kernel 1) (one_kernel 64) (one_kernel 64) (one_kernel 64)
       1 1 16 16 1.

(** The distance matrix of an episode, as [calc_euclidian_dists] returns it
    on the query embeddings and the prototypes. *)
Definition episode_distances (self : Prototypical) (support query : Tensor)
  (n_class n_support n_query : nat) : list (list R) :=
  map (fun u => map (entry u) (prototypes self support n_class n_support))
      (query_embeddings self support query n_class n_support n_query).

(** A query tensor of two classes, against the one class of
    [example_support]. *)
Definition example_query_two_classes : Tensor :=
  mkTensor [2; 1; 16; 16; 1]%nat (repeat 1 512).

(** What lines 66 and 85 ask of the query tensor: a second dimension
    [n_query] and as many elements as [n_class * n_query] images hold. *)
Definition accepted_query (self : Prototypical) (n_class n_query : nat)
  (query : Tensor) : Prop :=
  shape_at query 1 = inr n_query
  /\ numel (shape query) = (n_class * n_query * w self * h self * c self)%nat
  /\ wf_tensor query.

(** Two classes of one support image, and a query tensor of one class whose
    only image is twice as high as the instance's images. *)
Definition example_support_two_classes : Tensor :=
  mkTensor [2; 1; 16; 16; 1]%nat (repeat 0 512).

Definition example_query_tall : Tensor :=
  mkTensor [1; 1; 32; 16; 1]%nat (repeat 1 512).



(** ** What a call may assign

    [same_parameters s s']: the two states have the same image size, the
    same convolution and pooling layers, and batch-normalisation layers with
    the same scales and offsets; only moving statistics may differ. *)
Definition same_parameters (s s' : Prototypical) : Prop :=
  w s' = w s /\ h s' = h s /\ c s' = c s
  /\ conv_layers s' = conv_layers s
  /\ max_pool_layers s' = max_pool_layers s
  /\ map gamma (batch_norm_layers s') = map gamma (batch_norm_layers s)
  /\ map beta (batch_norm_layers s') = map beta (batch_norm_layers s).

(** A computation that, from any state and whatever its outcome, leaves a
    state with the same parameters. *)
Definition keeps_parameters {A} (m : M Prototypical A) : Prop :=
  forall s, same_parameters s (snd (m s)).

(** [example_model] after some training of its moving statistics. *)
Definition example_model_moved : Prototypical :=
  with_batch_norm_layers example_model
    (map (fun bn => {| gamma := gamma bn; beta := beta bn;
                       moving_mean := repeat 3 64;
                       moving_variance := repeat 2 64 |})
         (batch_norm_layers example_model)).

(** ** A network that tells a dark image from a bright one

    Kernels whose only non-zero tap is the centre one, copying the first
    input channel to every output channel; images of a single value; and a
    two-class episode made of an all-0 and an all-1 image. *)















(** * Properties *)

(** ** Sums, tiling and zipping *)

Lemma big_sum_ext (n : nat) (f g : nat -> R) :
  (forall k, (k < n)%nat -> f k = g k) -> big_sum n f = big_sum n g.
Proof.
  induction n as [|n IH]; intros Hfg; simpl; [reflexivity|].
  rewrite IH by (intros k Hk; apply Hfg; lia).
  rewrite (Hfg n) by lia. reflexivity.
Qed.

Lemma big_sum_shift (n : nat) (f : nat -> R) :
  big_sum (S n) f = f O + big_sum n (fun k => f (S k)).
Proof.
  induction n as [|n IH].
  - simpl. lra.
  - change (big_sum (S (S n)) f) with (big_sum (S n) f + f (S n)).
    rewrite IH. simpl. lra.
Qed.

Lemma reduce_sum_big_sum (l : vec) :
  reduce_sum l = big_sum (length l) (fun k => nth k l 0).
Proof.
  induction l as [|a t IH].
  - reflexivity.
  - change (length (a :: t)) with (S (length t)).
    rewrite big_sum_shift. simpl. rewrite IH. reflexivity.
Qed.

Lemma big_sum_nonneg (n : nat) (f : nat -> R) :
  (forall k, (k < n)%nat -> 0 <= f k) -> 0 <= big_sum n f.
Proof.
  induction n as [|n IH]; intros Hf; simpl; [lra|].
  assert (0 <= big_sum n f) by (apply IH; intros; apply Hf; lia).
  assert (0 <= f n) by (apply Hf; lia). lra.
Qed.


Lemma tile1_1 {A} (l : list A) : tile1 1 l = l.
Proof. unfold tile1. simpl. apply app_nil_r. Qed.

Lemma map_tile1_1 {A} (l : list (list A)) : map (tile1 1) l = l.
Proof.
  induction l as [|a t IH]; simpl; [reflexivity|].
  rewrite tile1_1, IH. reflexivity.
Qed.

Lemma tile1_singleton {A} (k : nat) (a : A) : tile1 k [a] = repeat a k.
Proof.
  unfold tile1. induction k as [|k IH]; simpl; [reflexivity|].
  rewrite IH. reflexivity.
Qed.

Lemma zip_exact_ok {A B C} (op : string) (f : A -> B -> result C)
  (g : A -> B -> C) (l1 : list A) (l2 : list B) :
  length l1 = length l2 ->
  (forall a b, In (a, b) (combine l1 l2) -> f a b = inr (g a b)) ->
  zip_exact op f l1 l2 = inr (map (fun p => g (fst p) (snd p)) (combine l1 l2)).
Proof.
  revert l2. induction l1 as [|a t1 IH]; intros [|b t2] Hlen Hf;
    simpl in *; try discriminate; [reflexivity|].
  rewrite (Hf a b) by (left; reflexivity).
  rewrite IH; [reflexivity | lia | intros; apply Hf; right; assumption].
Qed.


Lemma combine_map_repeat {A A' B} (f : A -> A') (l : list A) (b : B) :
  combine (map f l) (repeat b (length l)) = map (fun a => (f a, b)) l.
Proof.
  induction l as [|a t IH]; simpl; [reflexivity|]. rewrite IH. reflexivity.
Qed.

Lemma combine_repeat_l {A B} (a : A) (l : list B) :
  combine (repeat a (length l)) l = map (fun b => (a, b)) l.
Proof.
  induction l as [|b t IH]; simpl; [reflexivity|]. rewrite IH. reflexivity.
Qed.

(** ** calc_euclidian_dists *)

(** The two tiled operands, as lists. *)
Lemma tiled_x (x : mat) (m : nat) :
  tile3 1 m 1 (expand_dims_1 x) = map (fun r => repeat r m) x.
Proof.
  unfold tile3, expand_dims_1. rewrite tile1_1, map_map.
  apply map_ext. intros r. simpl. rewrite tile1_1. apply tile1_singleton.
Qed.

Lemma tiled_y (y : mat) (n : nat) :
  tile3 n 1 1 (expand_dims_0 y) = repeat y n.
Proof.
  unfold tile3, expand_dims_0. simpl.
  rewrite map_tile1_1, tile1_1. apply tile1_singleton.
Qed.

Lemma calc_euclidian_dists_rows (d : nat) (x y : mat) :
  Forall (fun r => length r = d) x ->
  Forall (fun r => length r = d) y ->
  calc_euclidian_dists x y = inr (map (fun u => map (entry u) y) x).
Proof.
  intros Hx Hy. unfold calc_euclidian_dists, elementwise3.
  rewrite tiled_x, tiled_y.
  rewrite (zip_exact_ok _ _
             (fun (us vs : mat) =>
                map (fun p => map (fun q => fst q - snd q) (combine (fst p) (snd p)))
                    (combine us vs))).
  - rewrite combine_map_repeat, map_map.
    unfold reduce_mean_axis2, pow2_3. rewrite !map_map.
    f_equal. apply map_ext_in. intros u Hu. simpl.
    rewrite combine_repeat_l, !map_map. apply map_ext. intros v. reflexivity.
  - rewrite length_map, repeat_length. reflexivity.
  - intros us vs Hin.
    rewrite combine_map_repeat in Hin. apply in_map_iff in Hin.
    destruct Hin as [u [Heq Hu]]. simpl in Heq. inversion Heq; subst us vs.
    apply (zip_exact_ok _ _
             (fun u v : vec => map (fun q => fst q - snd q) (combine u v))).
    + rewrite repeat_length. reflexivity.
    + intros u' v Hin. apply in_combine_l in Hin as Hl. apply in_combine_r in Hin.
      apply repeat_spec in Hl. subst u'.
      unfold broadcast_last.
      rewrite Forall_forall in Hx, Hy.
      rewrite (Hx u Hu), (Hy v Hin), Nat.eqb_refl. reflexivity.
Qed.

(** A run on two queries and one prototype of dimension 2: the entries are
    4 / 2 and 5 / 2, the halves of the sums of squares. *)
Example calc_euclidian_dists_run :
  calc_euclidian_dists [[1; 2]; [3; 5]] [[1; 4]] = inr [[2]; [5 / 2]].
Proof.
  rewrite (calc_euclidian_dists_rows 2) by (repeat constructor).
  unfold entry, reduce_mean. simpl.
  repeat f_equal; lra.
Qed.

Lemma nth_entry (x y : mat) (i j : nat) :
  (i < length x)%nat -> (j < length y)%nat ->
  nth j (nth i (map (fun u => map (entry u) y) x) []) 0
  = entry (nth i x []) (nth j y []).
Proof.
  intros Hi Hj.
  rewrite (nth_indep _ [] (map (entry []) y)) by (rewrite length_map; exact Hi).
  rewrite (map_nth (fun u => map (entry u) y) x [] i).
  rewrite (nth_indep _ 0 (entry (nth i x []) [])) by (rewrite length_map; exact Hj).
  apply (map_nth (entry (nth i x [])) y [] j).
Qed.

Lemma nth_sq_diff (u v : vec) (k : nat) :
  length u = length v -> (k < length u)%nat ->
  nth k (map (fun r => r ^ 2) (map (fun p => fst p - snd p) (combine u v))) 0
  = (nth k u 0 - nth k v 0) ^ 2.
Proof.
  intros Hlen Hk. rewrite map_map.
  rewrite (nth_indep _ 0 ((fun p : R * R => (fst p - snd p) ^ 2) (0, 0)))
    by (rewrite length_map, length_combine; lia).
  rewrite (map_nth (fun p : R * R => (fst p - snd p) ^ 2) (combine u v) (0, 0) k).
  rewrite combine_nth by exact Hlen. reflexivity.
Qed.

Lemma entry_mean_sq_diff (d : nat) (u v : vec) :
  length u = d -> length v = d -> entry u v = mean_sq_diff d u v.
Proof.
  intros Hu Hv. unfold entry, mean_sq_diff, reduce_mean.
  rewrite reduce_sum_big_sum.
  rewrite !length_map, length_combine, Hu, Hv, Nat.min_id.
  f_equal. apply big_sum_ext. intros k Hk.
  apply nth_sq_diff; lia.
Qed.



Lemma Forall_nth_length (d : nat) (x : mat) (i : nat) :
  Forall (fun r => length r = d) x -> (i < length x)%nat ->
  length (nth i x []) = d.
Proof.
  intros Hx Hi. rewrite Forall_forall in Hx. apply Hx. apply nth_In. exact Hi.
Qed.

(** C2.  For query embeddings [z_query] with [n_class * n_query] rows and
    prototypes [z_prototypes] with [n_class] rows, all of feature dimension
    [dim >= 1], [calc_euclidian_dists z_query z_prototypes] (line 94) returns
    a matrix of shape [n_class * n_query, n_class] whose entry (i, j) is the
    mean, over the [dim] features, of the squared difference of row i of
    [z_query] and row j of [z_prototypes]: the sum of the squares divided by
    [dim], so [dim] times the entry is the plain sum of squares. *)
Theorem calc_euclidian_dists_is_mean_of_squares
  (n_class n_query dim : nat) (z_query z_prototypes : mat) :
  (1 <= dim)%nat ->
  length z_query = (n_class * n_query)%nat ->
  length z_prototypes = n_class ->
  Forall (fun r => length r = dim) z_query ->
  Forall (fun r => length r = dim) z_prototypes ->
  exists dists,
    calc_euclidian_dists z_query z_prototypes = inr dists
    /\ length dists = (n_class * n_query)%nat
    /\ Forall (fun row => length row = n_class) dists
    /\ forall i j, (i < n_class * n_query)%nat -> (j < n_class)%nat ->
         nth j (nth i dists []) 0
         = mean_sq_diff dim (nth i z_query []) (nth j z_prototypes [])
         /\ INR dim * nth j (nth i dists []) 0
            = big_sum dim (fun k => (nth k (nth i z_query []) 0
                                     - nth k (nth j z_prototypes []) 0) ^ 2).
Proof.
  intros Hd Hn Hm Hx Hy.
  exists (map (fun u => map (entry u) z_prototypes) z_query).
  split; [apply (calc_euclidian_dists_rows dim); assumption|].
  split; [rewrite length_map; exact Hn|].
  split.
  { apply Forall_forall. intros row Hin. apply in_map_iff in Hin.
    destruct Hin as [u [<- _]]. rewrite length_map. exact Hm. }
  intros i j Hi Hj.
  rewrite nth_entry by lia.
  rewrite (entry_mean_sq_diff dim)
    by (apply Forall_nth_length; [assumption | lia]).
  split; [reflexivity|].
  unfold mean_sq_diff. field. apply Rgt_not_eq. apply lt_0_INR. lia.
Qed.

Lemma calc_euclidian_dists_is_mean_of_squares_witness :
  exists dists,
    calc_euclidian_dists [[1; 2]; [3; 5]] [[1; 4]] = inr dists
    /\ length dists = (1 * 2)%nat
    /\ Forall (fun row => length row = 1%nat) dists
    /\ forall i j, (i < 1 * 2)%nat -> (j < 1)%nat ->
         nth j (nth i dists []) 0
         = mean_sq_diff 2 (nth i [[1; 2]; [3; 5]] []) (nth j [[1; 4]] [])
         /\ INR 2 * nth j (nth i dists []) 0
            = big_sum 2 (fun k => (nth k (nth i [[1; 2]; [3; 5]] []) 0
                                   - nth k (nth j [[1; 4]] []) 0) ^ 2).
Proof.
  apply (calc_euclidian_dists_is_mean_of_squares 1 2 2);
    [lia | reflexivity | reflexivity | |];
    repeat constructor.
Defined.



(** ** Row-major blocks *)

Lemma reduce_sum_app (l1 l2 : vec) :
  reduce_sum (l1 ++ l2) = reduce_sum l1 + reduce_sum l2.
Proof.
  induction l1 as [|a t IH]; simpl; [lra|]. rewrite IH. lra.
Qed.

Lemma reduce_sum_map_seq (n : nat) (g : nat -> R) :
  reduce_sum (map g (seq 0 n)) = big_sum n g.
Proof.
  induction n as [|n IH]; [reflexivity|].
  rewrite seq_S, map_app, reduce_sum_app, IH. simpl. lra.
Qed.

Lemma firstn_map_nth {A} (d : A) (n : nat) (l : list A) :
  (n <= length l)%nat -> firstn n l = map (fun i => nth i l d) (seq 0 n).
Proof.
  revert l. induction n as [|n IH]; intros l Hn; [reflexivity|].
  destruct l as [|a t]; simpl in Hn; [lia|].
  simpl. rewrite <- seq_shift, map_map. f_equal. apply IH. lia.
Qed.

Lemma chunk_nth {A} (d : A) (cnt n : nat) (l : list A) :
  length l = (cnt * n)%nat ->
  chunk cnt n l
  = map (fun k => map (fun i => nth (k * n + i) l d) (seq 0 n)) (seq 0 cnt).
Proof.
  revert l. induction cnt as [|cnt IH]; intros l Hl; [reflexivity|].
  simpl. rewrite <- seq_shift, map_map. f_equal.
  - apply firstn_map_nth. lia.
  - rewrite IH by (rewrite length_skipn; lia).
    apply map_ext. intros k. apply map_ext. intros i.
    rewrite nth_skipn. f_equal. lia.
Qed.

Lemma chunk_length {A} (cnt n : nat) (l : list A) : length (chunk cnt n l) = cnt.
Proof.
  revert l. induction cnt as [|cnt IH]; intros l; simpl; [reflexivity|].
  rewrite IH. reflexivity.
Qed.

Lemma concat_rows_length {A} (d : nat) (rows : list (list A)) :
  Forall (fun r => length r = d) rows ->
  length (concat rows) = (length rows * d)%nat.
Proof.
  induction 1 as [|r t Hr _ IH]; simpl; [reflexivity|].
  rewrite length_app, IH, Hr. reflexivity.
Qed.

Lemma nth_concat_rows {A} (d0 : A) (d : nat) (rows : list (list A)) (k i : nat) :
  Forall (fun r => length r = d) rows -> (i < d)%nat ->
  nth (k * d + i) (concat rows) d0 = nth i (nth k rows []) d0.
Proof.
  intros Hrows Hi. revert k.
  induction Hrows as [|r t Hr _ IH]; intros k.
  - simpl. destruct k; destruct i; simpl; try reflexivity;
      destruct (_ + _)%nat; reflexivity.
  - simpl concat. destruct k as [|k].
    + simpl. rewrite app_nth1 by lia. reflexivity.
    + rewrite app_nth2 by (simpl; lia).
      replace (S k * d + i - length r)%nat with (k * d + i)%nat by (simpl; lia).
      simpl. apply IH.
Qed.

Lemma firstn_app_exact {A} (n : nat) (l1 l2 : list A) :
  length l1 = n -> firstn n (l1 ++ l2) = l1.
Proof.
  intros <-. rewrite firstn_app, firstn_all, Nat.sub_diag. simpl.
  apply app_nil_r.
Qed.

Lemma skipn_app_exact {A} (n : nat) (l1 l2 : list A) :
  length l1 = n -> skipn n (l1 ++ l2) = l2.
Proof.
  intros <-. rewrite skipn_app, skipn_all, Nat.sub_diag. reflexivity.
Qed.

(** Cutting the concatenation of [cnt] rows of length [n] gives the rows
    back. *)
Lemma chunk_concat {A} (cnt n : nat) (rows : list (list A)) :
  length rows = cnt -> Forall (fun r => length r = n) rows ->
  chunk cnt n (concat rows) = rows.
Proof.
  intros Hlen Hrows. revert cnt Hlen.
  induction Hrows as [|r t Hr _ IH]; intros cnt Hlen; subst cnt;
    [reflexivity|].
  simpl. rewrite firstn_app_exact, skipn_app_exact by exact Hr.
  f_equal. apply IH. reflexivity.
Qed.

(** Cutting the concatenation of [a * b] rows of length [n] into [a] blocks
    of [b * n] elements, and every block into [b] rows, groups the rows by
    blocks of [b]. *)
Lemma chunk_chunk_concat {A} (a b n : nat) (rows : list (list A)) :
  length rows = (a * b)%nat -> Forall (fun r => length r = n) rows ->
  map (chunk b n) (chunk a (b * n) (concat rows)) = chunk a b rows.
Proof.
  revert rows. induction a as [|a IH]; intros rows Hlen Hrows; [reflexivity|].
  assert (H12 : Forall (fun r => length r = n) (firstn b rows ++ skipn b rows))
    by (rewrite firstn_skipn; exact Hrows).
  apply Forall_app in H12. destruct H12 as [H1 H2].
  assert (Hb : length (firstn b rows) = b) by (rewrite length_firstn; lia).
  assert (Hc : length (concat (firstn b rows)) = (b * n)%nat)
    by (rewrite (concat_rows_length n), Hb; [reflexivity | exact H1]).
  assert (Hcat : concat rows = concat (firstn b rows) ++ concat (skipn b rows))
    by (rewrite <- concat_app, firstn_skipn; reflexivity).
  simpl. rewrite Hcat.
  rewrite firstn_app_exact, skipn_app_exact by exact Hc.
  rewrite chunk_concat by assumption.
  f_equal. apply IH; [rewrite length_skipn; lia | exact H2].
Qed.

Lemma combine_map_same {A B C} (f : A -> B) (g : A -> C) (l : list A) :
  combine (map f l) (map g l) = map (fun a => (f a, g a)) l.
Proof.
  induction l as [|a t IH]; simpl; [reflexivity|]. rewrite IH. reflexivity.
Qed.

Lemma zip_exact_map {I A B C} (op : string) (f : A -> B -> result C)
  (g : I -> C) (a : I -> A) (b : I -> B) (l : list I) :
  (forall k, In k l -> f (a k) (b k) = inr (g k)) ->
  zip_exact op f (map a l) (map b l) = inr (map g l).
Proof.
  induction l as [|k t IH]; intros Hf; simpl; [reflexivity|].
  rewrite (Hf k) by (left; reflexivity).
  rewrite IH by (intros; apply Hf; right; assumption). reflexivity.
Qed.

Lemma seq_offset (s n : nat) : seq s n = map (fun i => (s + i)%nat) (seq 0 n).
Proof.
  revert s. induction n as [|n IH]; intros s; [reflexivity|].
  simpl. rewrite Nat.add_0_r. f_equal.
  rewrite (IH (S s)), (IH 1%nat), map_map.
  apply map_ext. intros i. lia.
Qed.

(** The flat numbering of the cells of [cnt] blocks of [n]. *)
Lemma concat_blocks_flat {A} (F : nat -> nat -> A) (cnt n : nat) :
  concat (map (fun k => map (fun i => F (k * n + i)%nat k) (seq 0 n)) (seq 0 cnt))
  = map (fun q => F q (q / n)%nat) (seq 0 (cnt * n)).
Proof.
  induction cnt as [|cnt IH]; [reflexivity|].
  rewrite seq_S, map_app, concat_app, IH. simpl.
  replace (n + cnt * n)%nat with (cnt * n + n)%nat by lia.
  rewrite seq_app, map_app. f_equal. rewrite app_nil_r.
  simpl. rewrite (seq_offset (cnt * n)), map_map.
  apply map_ext_in. intros i Hi. apply in_seq in Hi.
  f_equal. rewrite Nat.div_add_l by lia. rewrite Nat.div_small by lia. lia.
Qed.

(** ** One-hot selection, log-softmax and argmax *)

Lemma one_hot_dot_from (k s : nat) (v : vec) :
  reduce_sum (map (fun p => fst p * snd p)
                (combine (map (fun j => if Nat.eqb j k then 1 else 0)
                              (seq s (length v))) v))
  = if Nat.leb s k then nth (k - s) v 0 else 0.
Proof.
  revert s. induction v as [|a t IH]; intros s.
  - simpl. destruct (Nat.leb s k); [destruct (k - s)%nat|]; reflexivity.
  - simpl. rewrite IH.
    destruct (Nat.eqb_spec s k) as [->|Hne].
    + rewrite Nat.leb_refl, Nat.sub_diag.
      destruct (Nat.leb_spec (S k) k); [lia|]. lra.
    + destruct (Nat.leb_spec s k) as [Hle|Hgt].
      * destruct (Nat.leb_spec (S s) k); [|lia].
        replace (k - s)%nat with (S (k - S s)) by lia. lra.
      * destruct (Nat.leb_spec (S s) k); [lia|]. lra.
Qed.

Lemma one_hot_dot (depth k : nat) (v : vec) :
  length v = depth ->
  reduce_sum (map (fun p => fst p * snd p) (combine (one_hot depth k) v))
  = nth k v 0.
Proof.
  intros <-. unfold one_hot. rewrite one_hot_dot_from. simpl.
  rewrite Nat.sub_0_r. reflexivity.
Qed.

Lemma one_hot_length (depth k : nat) : length (one_hot depth k) = depth.
Proof. unfold one_hot. rewrite length_map. apply length_seq. Qed.

Lemma big_sum_pos (n : nat) (f : nat -> R) :
  (1 <= n)%nat -> (forall k, 0 < f k) -> 0 < big_sum n f.
Proof.
  intros Hn Hf. destruct n as [|n]; [lia|]. simpl.
  assert (0 <= big_sum n f) by (apply big_sum_nonneg; intros; left; apply Hf).
  specialize (Hf n). lra.
Qed.


Lemma sum_exp_big_sum (l : vec) :
  reduce_sum (map exp l) = big_sum (length l) (fun k => exp (nth k l 0)).
Proof.
  rewrite reduce_sum_big_sum, length_map. apply big_sum_ext. intros k Hk.
  rewrite (nth_indep _ 0 (exp 0)) by (rewrite length_map; exact Hk).
  apply map_nth.
Qed.

Lemma log_softmax_length (l : vec) : length (log_softmax l) = length l.
Proof. unfold log_softmax. apply length_map. Qed.

Lemma nth_log_softmax (l : vec) (j : nat) :
  (j < length l)%nat ->
  nth j (log_softmax l) 0 = nth j l 0 - ln (reduce_sum (map exp l)).
Proof.
  intros Hj. unfold log_softmax.
  rewrite (nth_indep _ 0 (0 - ln (reduce_sum (map exp l))))
    by (rewrite length_map; exact Hj).
  apply (map_nth (fun v => v - ln (reduce_sum (map exp l)))).
Qed.

(** An entry of [log_softmax] is the logarithm of the softmax probability. *)
Lemma nth_log_softmax_prob (l : vec) (j : nat) :
  (j < length l)%nat -> nth j (log_softmax l) 0 = ln (softmax_prob l j).
Proof.
  intros Hj. rewrite nth_log_softmax by exact Hj.
  unfold softmax_prob. rewrite sum_exp_big_sum.
  assert (Hpos : 0 < big_sum (length l) (fun k => exp (nth k l 0)))
    by (apply big_sum_pos; [lia | intros; apply exp_pos]).
  unfold Rdiv. rewrite ln_mult, ln_Rinv, ln_exp;
    [lra | exact Hpos | apply exp_pos | apply Rinv_0_lt_compat; exact Hpos].
Qed.


Lemma argmax_from_spec (l pre : vec) (best_i i : nat) (best : R) :
  i = length pre ->
  (best_i < i)%nat -> best = nth best_i pre 0 ->
  (forall k, (k < i)%nat -> nth k pre 0 <= best) ->
  (forall k, (k < best_i)%nat -> nth k pre 0 < best) ->
  is_first_argmax (pre ++ l) (argmax_from best_i best i l).
Proof.
  revert pre best_i i best.
  induction l as [|v t IH]; intros pre best_i i best Hi Hbi Hbest Hmax Hfirst.
  - simpl. rewrite app_nil_r. subst best i. repeat split; assumption.
  - simpl.
    replace (pre ++ v :: t) with ((pre ++ [v]) ++ t)
      by (rewrite <- app_assoc; reflexivity).
    assert (Hpre : forall k, (k < i)%nat -> nth k (pre ++ [v]) 0 = nth k pre 0)
      by (intros k Hk; apply app_nth1; lia).
    assert (Hv : nth i (pre ++ [v]) 0 = v)
      by (rewrite app_nth2 by lia; subst i; rewrite Nat.sub_diag; reflexivity).
    destruct (Rlt_dec best v) as [Hlt|Hge].
    + apply IH.
      * rewrite length_app. simpl. lia.
      * lia.
      * symmetry. exact Hv.
      * intros k Hk. destruct (Nat.eq_dec k i) as [->|Hne].
        -- rewrite Hv. lra.
        -- rewrite Hpre by lia. specialize (Hmax k ltac:(lia)). lra.
      * intros k Hk. rewrite Hpre by lia. specialize (Hmax k ltac:(lia)). lra.
    + apply IH.
      * rewrite length_app. simpl. lia.
      * lia.
      * rewrite Hpre by lia. exact Hbest.
      * intros k Hk. destruct (Nat.eq_dec k i) as [->|Hne].
        -- rewrite Hv. lra.
        -- rewrite Hpre by lia. apply Hmax. lia.
      * intros k Hk. rewrite Hpre by lia. apply Hfirst. exact Hk.
Qed.

(** [argmax] returns the first index of a maximal entry. *)
Lemma argmax_is_first_argmax (l : vec) :
  (1 <= length l)%nat -> is_first_argmax l (argmax l).
Proof.
  intros Hl. destruct l as [|v t]; [simpl in Hl; lia|].
  unfold argmax. apply (argmax_from_spec t [v] 0 1 v).
  - reflexivity.
  - lia.
  - reflexivity.
  - intros k Hk. replace k with 0%nat by lia. simpl. lra.
  - intros k Hk. lia.
Qed.

(** ** The loss head *)

Lemma tile2_labels (n_class n_query : nat) :
  tile2 1 n_query (newaxis_col (arange n_class))
  = map (fun k => map (fun _ => k) (seq 0 n_query)) (seq 0 n_class).
Proof.
  unfold tile2, newaxis_col, arange. rewrite tile1_1, map_map.
  apply map_ext. intros k. rewrite tile1_singleton.
  generalize 0%nat. induction n_query as [|n IH]; intros s; [reflexivity|].
  simpl. rewrite <- IH. reflexivity.
Qed.

Lemma reduce_sum_indicator (p : nat -> bool) (l : list nat) :
  reduce_sum (map (fun q => if p q then 1 else 0) l) = INR (length (filter p l)).
Proof.
  induction l as [|q t IH]; [reflexivity|].
  simpl. rewrite IH. destruct (p q).
  - change (length (q :: filter p t)) with (S (length (filter p t))).
    rewrite S_INR. lra.
  - lra.
Qed.

(** On a distance matrix of [n_class * n_query > 0] rows and [n_class]
    columns the head returns the loss and the accuracy of the
    specification. *)
Lemma head_spec (n_class n_query : nat) (dists : mat) :
  (0 < n_class * n_query)%nat ->
  length dists = (n_class * n_query)%nat ->
  Forall (fun row => length row = n_class) dists ->
  head n_class n_query dists
  = inr (nll_spec n_class n_query dists, accuracy_spec n_class n_query dists).
Proof.
  intros HN Hlen Hrows.
  set (lp := map (fun row => log_softmax (map Ropp row)) dists).
  assert (Hlplen : length lp = (n_class * n_query)%nat)
    by (unfold lp; rewrite length_map; exact Hlen).
  assert (Hlprows : Forall (fun row => length row = n_class) lp).
  { unfold lp. apply Forall_forall. intros row Hin. apply in_map_iff in Hin.
    destruct Hin as [r [<- Hr]]. rewrite log_softmax_length, length_map.
    rewrite Forall_forall in Hrows. apply Hrows. exact Hr. }
  assert (Hnth : forall q, (q < n_class * n_query)%nat ->
            nth q lp [] = log_softmax (map Ropp (nth q dists []))).
  { intros q Hq. unfold lp.
    rewrite (nth_indep _ [] (log_softmax (map Ropp [])))
      by (rewrite length_map; lia).
    apply (map_nth (fun row => log_softmax (map Ropp row))). }
  assert (Hnthlen : forall q, (q < n_class * n_query)%nat ->
            length (nth q lp []) = n_class)
    by (intros q Hq; apply Forall_nth_length; [exact Hlprows | lia]).
  unfold head. fold lp.
  unfold reshape3_infer.
  destruct (Nat.eqb_spec (n_class * n_query) 0) as [H0|_]; [lia|].
  rewrite (concat_rows_length n_class) by exact Hlprows.
  rewrite Hlplen, (Nat.mul_comm (n_class * n_query) n_class).
  rewrite Nat.Div0.mod_mul, Nat.eqb_refl, Nat.div_mul by lia.
  unfold reshape3.
  rewrite (concat_rows_length n_class) by exact Hlprows.
  rewrite Hlplen, Nat.eqb_refl.
  rewrite chunk_chunk_concat by assumption.
  rewrite (chunk_nth []) by exact Hlplen.
  rewrite tile2_labels.
  assert (Hidx : forall k i, In k (seq 0 n_class) -> In i (seq 0 n_query) ->
            (k * n_query + i < n_class * n_query)%nat).
  { intros k i Hk Hi. apply in_seq in Hk. apply in_seq in Hi.
    apply Nat.lt_le_trans with (S k * n_query)%nat; [simpl; lia|].
    apply Nat.mul_le_mono_r. lia. }
  (* the product with the one-hot labels *)
  rewrite (map_map _ (map (one_hot n_class))).
  unfold elementwise3.
  rewrite (zip_exact_map _ _
             (fun k => map (fun i => map (fun p => fst p * snd p)
                                       (combine (one_hot n_class k)
                                                (nth (k * n_query + i) lp [])))
                           (seq 0 n_query))).
  2:{ intros k Hk. rewrite (map_map _ (one_hot n_class)).
      apply zip_exact_map. intros i Hi. unfold broadcast_last.
      rewrite one_hot_length, Hnthlen, Nat.eqb_refl by (apply Hidx; assumption).
      reflexivity. }
  (* the comparison of the predictions with the labels *)
  unfold equal2. rewrite (map_map _ (map argmax)).
  rewrite (zip_exact_map _ _
             (fun k => map (fun i => if Nat.eqb (argmax (nth (k * n_query + i) lp []))
                                                k then 1 else 0)
                           (seq 0 n_query))).
  2:{ intros k Hk. rewrite (map_map _ argmax).
      apply zip_exact_map. intros i Hi. reflexivity. }
  f_equal. f_equal.
  - (* loss *)
    unfold nll_spec. f_equal. rewrite map_map.
    rewrite (map_ext_in _
               (fun k => map (fun i => nth k (nth (k * n_query + i) lp []) 0)
                             (seq 0 n_query))).
    2:{ intros k Hk. rewrite map_map. apply map_ext_in. intros i Hi.
        apply one_hot_dot. apply Hnthlen. apply Hidx; assumption. }
    rewrite (concat_blocks_flat (fun q k => nth k (nth q lp []) 0)).
    unfold reduce_mean. rewrite length_map, length_seq, reduce_sum_map_seq.
    f_equal. apply big_sum_ext. intros q Hq.
    unfold log_prob. rewrite Hnth by exact Hq.
    apply nth_log_softmax_prob.
    rewrite <- log_softmax_length, <- Hnth, Hnthlen by exact Hq.
    apply Nat.Div0.div_lt_upper_bound. rewrite Nat.mul_comm. exact Hq.
  - (* accuracy *)
    unfold accuracy_spec, n_correct.
    rewrite (concat_blocks_flat
               (fun q k => if Nat.eqb (argmax (nth q lp [])) k then 1 else 0)).
    unfold reduce_mean. rewrite length_map, length_seq.
    f_equal.
    rewrite <- reduce_sum_indicator. f_equal.
    apply map_ext_in. intros q Hq. apply in_seq in Hq.
    unfold is_correct, predicted. rewrite Hnth by lia. reflexivity.
Qed.

(** ** Shapes through the layers *)

Lemma pairs_ind {A} (P : list A -> Prop) :
  P [] -> (forall a, P [a]) -> (forall a b t, P t -> P (a :: b :: t)) ->
  forall l, P l.
Proof.
  intros H0 H1 H2 l.
  assert (H : P l /\ forall a, P (a :: l)).
  { induction l as [|b t [IHt IHa]].
    - split; [exact H0 | exact H1].
    - split; [apply IHa | intros a; apply H2; exact IHt]. }
  apply H.
Qed.

Lemma pairs_length {A} (l : list A) : length (pairs l) = (length l / 2)%nat.
Proof.
  induction l as [| a | a b t IH] using pairs_ind; [reflexivity..|].
  change (length (a :: b :: t)) with (2 + length t)%nat.
  replace (2 + length t)%nat with (1 * 2 + length t)%nat by lia.
  rewrite Nat.div_add_l by lia. simpl. rewrite IH. reflexivity.
Qed.

Lemma pairs_In {A} (l : list A) (x y : A) :
  In (x, y) (pairs l) -> In x l /\ In y l.
Proof.
  induction l as [| a | a b t IH] using pairs_ind; simpl; [tauto..|].
  intros [Heq|Hin].
  - inversion Heq; subst. tauto.
  - apply IH in Hin. tauto.
Qed.

Lemma max_pixel_length (p q : list R) :
  length (max_pixel p q) = Nat.min (length p) (length q).
Proof. unfold max_pixel. rewrite length_map. apply length_combine. Qed.

Lemma chunk_Forall_length {A} (cnt n : nat) (l : list A) :
  length l = (cnt * n)%nat -> Forall (fun r => length r = n) (chunk cnt n l).
Proof.
  revert l. induction cnt as [|cnt IH]; intros l Hl; simpl; constructor.
  - rewrite length_firstn. lia.
  - apply IH. rewrite length_skipn. lia.
Qed.

Lemma Forall_map_intro {A B} (P : B -> Prop) (f : A -> B) (l : list A) :
  (forall a, In a l -> P (f a)) -> Forall P (map f l).
Proof.
  intros H. apply Forall_forall. intros b Hb. apply in_map_iff in Hb.
  destruct Hb as [a [<- Ha]]. apply H. exact Ha.
Qed.

Lemma reshape4_shape (t : Tensor) (d0 d1 d2 d3 : nat) :
  wf_tensor t -> numel (shape t) = (d0 * d1 * d2 * d3)%nat ->
  reshape4 t d0 d1 d2 d3
  = inr (map (fun img => map (chunk d2 d3) (chunk d1 (d2 * d3) img))
             (chunk d0 (d1 * d2 * d3) (data t)))
  /\ has_shape4 d0 d1 d2 d3
       (map (fun img => map (chunk d2 d3) (chunk d1 (d2 * d3) img))
            (chunk d0 (d1 * d2 * d3) (data t))).
Proof.
  intros Hwf Hn. unfold reshape4. rewrite Hn, Nat.eqb_refl.
  split; [reflexivity|]. split.
  - rewrite length_map. apply chunk_length.
  - assert (Hc : Forall (fun r => length r = (d1 * d2 * d3)%nat)
                   (chunk d0 (d1 * d2 * d3) (data t)))
      by (apply chunk_Forall_length; rewrite Hwf, Hn; lia).
    rewrite Forall_forall in Hc.
    apply Forall_map_intro. intros img Himg. split.
    + rewrite length_map. apply chunk_length.
    + assert (Hr : Forall (fun r => length r = (d2 * d3)%nat)
                     (chunk d1 (d2 * d3) img))
        by (apply chunk_Forall_length; rewrite (Hc img Himg); lia).
      rewrite Forall_forall in Hr.
      apply Forall_map_intro. intros row Hrow. split.
      * apply chunk_length.
      * apply chunk_Forall_length. apply Hr. exact Hrow.
Qed.

Lemma Conv2D_call_shape (layer : Conv2D) (n a b ch : nat) (x : list (list (list (list R)))) :
  has_shape4 n a b ch x -> has_shape4 n a b (filters layer) (Conv2D_call layer x).
Proof.
  intros [Hn Himgs]. rewrite Forall_forall in Himgs. split.
  - unfold Conv2D_call. rewrite length_map. exact Hn.
  - apply Forall_map_intro. intros img Himg.
    destruct (Himgs img Himg) as [Ha Hrows]. split.
    + rewrite length_map, length_seq. exact Ha.
    + apply Forall_map_intro. intros i Hi. split.
      * rewrite length_map, length_seq.
        destruct img as [|row rows]; [apply in_seq in Hi; simpl in Hi; lia|].
        simpl. apply Forall_inv in Hrows. apply Hrows.
      * apply Forall_map_intro. intros j _.
        rewrite length_map. apply length_seq.
Qed.

Lemma MaxPool2D_call_shape (layer : MaxPool2D) (n a b ch : nat)
  (x : list (list (list (list R)))) :
  has_shape4 n a b ch x ->
  has_shape4 n (a / 2) (b / 2) ch (MaxPool2D_call layer x).
Proof.
  intros [Hn Himgs]. rewrite Forall_forall in Himgs. split.
  - unfold MaxPool2D_call. rewrite length_map. exact Hn.
  - apply Forall_map_intro. intros img Himg.
    destruct (Himgs img Himg) as [Ha Hrows]. rewrite Forall_forall in Hrows.
    split.
    + rewrite length_map, pairs_length, Ha. reflexivity.
    + apply Forall_map_intro. intros [r1 r2] Hrr. simpl.
      apply pairs_In in Hrr. destruct Hrr as [Hr1 Hr2].
      destruct (Hrows r1 Hr1) as [Hb1 Hpx1].
      destruct (Hrows r2 Hr2) as [Hb2 Hpx2].
      rewrite Forall_forall in Hpx1, Hpx2.
      unfold pool_rows. split.
      * rewrite length_map, length_combine, !pairs_length, Hb1, Hb2.
        apply Nat.min_id.
      * apply Forall_map_intro. intros [[p1 p2] [p3 p4]] Hin. simpl.
        apply in_combine_l in Hin as H12. apply in_combine_r in Hin as H34.
        apply pairs_In in H12. apply pairs_In in H34.
        rewrite !max_pixel_length.
        rewrite (Hpx1 p1), (Hpx1 p2), (Hpx2 p3), (Hpx2 p4) by tauto.
        lia.
Qed.

Lemma normalize_shape (layer : BatchNormalization) (mean var : list R)
  (n a b ch : nat) (x : list (list (list (list R)))) :
  has_shape4 n a b ch x -> has_shape4 n a b ch (normalize layer mean var x).
Proof.
  intros [Hn Himgs]. rewrite Forall_forall in Himgs. split.
  - unfold normalize. rewrite length_map. exact Hn.
  - apply Forall_map_intro. intros img Himg.
    destruct (Himgs img Himg) as [Ha Hrows]. rewrite Forall_forall in Hrows.
    split; [rewrite length_map; exact Ha|].
    apply Forall_map_intro. intros row Hrow.
    destruct (Hrows row Hrow) as [Hb Hpx]. rewrite Forall_forall in Hpx.
    split; [rewrite length_map; exact Hb|].
    apply Forall_map_intro. intros px Hin.
    rewrite length_map, length_combine, length_seq, Nat.min_id.
    apply Hpx. exact Hin.
Qed.

Lemma BatchNormalization_call_shape (layer : BatchNormalization)
  (training : bool) (n a b ch : nat) (x : list (list (list (list R)))) :
  has_shape4 n a b ch x ->
  has_shape4 n a b ch (fst (BatchNormalization_call layer x training)).
Proof.
  intros Hx. unfold BatchNormalization_call.
  destruct training; simpl; apply normalize_shape; exact Hx.
Qed.

Lemma run_blocks_shape (training : bool) (convs : list Conv2D)
  (pools : list MaxPool2D) (bns : list BatchNormalization) :
  length pools = length convs -> length bns = length convs ->
  forall (n a b ch : nat) (x : list (list (list (list R)))),
    has_shape4 n a b ch x ->
    has_shape4 n (fst (fst (out_dims convs a b ch)))
      (snd (fst (out_dims convs a b ch))) (snd (out_dims convs a b ch))
      (fst (run_blocks training convs pools bns x)).
Proof.
  revert pools bns.
  induction convs as [|conv convs IH]; intros pools bns Hp Hb n a b ch x Hx.
  - simpl. exact Hx.
  - destruct pools as [|pool pools]; [discriminate|].
    destruct bns as [|bn bns]; [discriminate|].
    simpl. apply IH; [simpl in Hp; lia | simpl in Hb; lia|].
    apply BatchNormalization_call_shape, MaxPool2D_call_shape.
    apply (Conv2D_call_shape conv n a b ch). exact Hx.
Qed.

Lemma flatten_layer_shape (n a b ch : nat) (x : list (list (list (list R)))) :
  has_shape4 n a b ch x ->
  length (flatten_layer x) = n
  /\ Forall (fun r => length r = (a * b * ch)%nat) (flatten_layer x).
Proof.
  intros [Hn Himgs]. rewrite Forall_forall in Himgs. unfold flatten_layer.
  split; [rewrite length_map; exact Hn|].
  apply Forall_map_intro. intros img Himg.
  destruct (Himgs img Himg) as [Ha Hrows].
  rewrite (concat_rows_length ch).
  - rewrite (concat_rows_length b), Ha; [reflexivity|].
    eapply Forall_impl; [|exact Hrows]. simpl. tauto.
  - apply Forall_forall. intros px Hpx. apply in_concat in Hpx.
    destruct Hpx as [row [Hrow Hin]]. rewrite Forall_forall in Hrows.
    destruct (Hrows row Hrow) as [_ Hp]. rewrite Forall_forall in Hp.
    apply Hp. exact Hin.
Qed.

(** ** The block loop *)

Lemma skipn_nth_error {A} (l : list A) (s : nat) :
  (s < length l)%nat ->
  exists a, nth_error l s = Some a /\ skipn s l = a :: skipn (S s) l.
Proof.
  revert s. induction l as [|b t IH]; intros s Hs; simpl in Hs; [lia|].
  destruct s as [|s].
  - exists b. split; reflexivity.
  - destruct (IH s ltac:(lia)) as [a [Hn Hsk]].
    exists a. split; [exact Hn | exact Hsk].
Qed.

Lemma list_update_length {A} (i : nat) (a : A) (l : list A) :
  length (list_update i a l) = length l.
Proof.
  revert i. induction l as [|b t IH]; intros [|i]; simpl; try reflexivity.
  rewrite IH. reflexivity.
Qed.

Lemma list_update_skipn {A} (i : nat) (a : A) (l : list A) :
  skipn (S i) (list_update i a l) = skipn (S i) l.
Proof.
  revert i. induction l as [|b t IH]; intros [|i]; try reflexivity.
  change (skipn (S i) (list_update i a t) = skipn (S i) t). apply IH.
Qed.

Lemma list_update_firstn {A} (i : nat) (a : A) (l : list A) :
  (i < length l)%nat -> firstn (S i) (list_update i a l) = firstn i l ++ [a].
Proof.
  revert i. induction l as [|b t IH]; intros [|i] Hi; simpl in Hi; try lia.
  - reflexivity.
  - change (b :: firstn (S i) (list_update i a t) = b :: (firstn i t ++ [a])).
    rewrite IH by lia. reflexivity.
Qed.

Lemma with_batch_norm_layers_id (self : Prototypical) :
  with_batch_norm_layers self (batch_norm_layers self) = self.
Proof. destruct self. reflexivity. Qed.

Lemma for_range_blocks (training : bool) (n : nat) :
  forall (s : nat) (x : list (list (list (list R)))) (self : Prototypical),
    wf_model self -> (s + n = length (conv_layers self))%nat ->
    for_range (seq s n)
      (fun i x =>
         x <- call_conv i x ;;
         x <- call_max_pool i x ;;
         call_batch_norm i x training) x self
    = (inr (fst (run_blocks training (skipn s (conv_layers self))
                   (skipn s (max_pool_layers self))
                   (skipn s (batch_norm_layers self)) x)),
       with_batch_norm_layers self
         (firstn s (batch_norm_layers self)
          ++ snd (run_blocks training (skipn s (conv_layers self))
                    (skipn s (max_pool_layers self))
                    (skipn s (batch_norm_layers self)) x))).
Proof.
  induction n as [|n IH]; intros s x self [Hp Hb] Hs.
  - simpl. rewrite Nat.add_0_r in Hs.
    rewrite (skipn_all2 (conv_layers self)) by lia. simpl.
    rewrite (skipn_all2 (batch_norm_layers self)) by lia.
    rewrite app_nil_r, firstn_all2 by lia.
    rewrite with_batch_norm_layers_id. reflexivity.
  - destruct (skipn_nth_error (conv_layers self) s ltac:(lia)) as [conv [Hc Hcs]].
    destruct (skipn_nth_error (max_pool_layers self) s ltac:(lia)) as [pool [Hq Hqs]].
    destruct (skipn_nth_error (batch_norm_layers self) s ltac:(lia)) as [bn [Hn Hns]].
    rewrite Hcs, Hqs, Hns.
    simpl seq. simpl for_range.
    unfold bind at 1. unfold bind at 1.
    unfold call_conv at 1, call_max_pool at 1, call_batch_norm at 1.
    unfold bind, get, lift, put, ret, index. rewrite Hc, Hq, Hn.
    rewrite IH.
    + simpl conv_layers. simpl max_pool_layers. simpl batch_norm_layers.
      rewrite list_update_skipn, list_update_firstn by lia.
      simpl run_blocks. simpl fst. simpl snd.
      rewrite <- app_assoc. reflexivity.
    + split; simpl; [exact Hp | rewrite list_update_length; exact Hb].
    + simpl. lia.
Qed.

Lemma run_blocks_inference_state (convs : list Conv2D) (pools : list MaxPool2D)
  (bns : list BatchNormalization) (x : list (list (list (list R)))) :
  snd (run_blocks false convs pools bns x) = bns.
Proof.
  revert pools bns x. induction convs as [|conv convs IH]; intros pools bns x.
  - reflexivity.
  - destruct pools as [|pool pools]; [reflexivity|].
    destruct bns as [|bn bns]; [reflexivity|].
    simpl. rewrite IH. reflexivity.
Qed.

Lemma run_blocks_state_length (training : bool) (convs : list Conv2D)
  (pools : list MaxPool2D) (bns : list BatchNormalization)
  (x : list (list (list (list R)))) :
  length (snd (run_blocks training convs pools bns x)) = length bns.
Proof.
  revert pools bns x. induction convs as [|conv convs IH]; intros pools bns x.
  - reflexivity.
  - destruct pools as [|pool pools]; [reflexivity|].
    destruct bns as [|bn bns]; [reflexivity|].
    simpl. rewrite IH. reflexivity.
Qed.

(** The whole loop, from the state [self]. *)
Lemma loop_run_blocks (training : bool) (x : list (list (list (list R))))
  (self : Prototypical) :
  wf_model self ->
  for_range (arange (length (conv_layers self)))
    (fun i x =>
       x <- call_conv i x ;;
       x <- call_max_pool i x ;;
       call_batch_norm i x training) x self
  = (inr (fst (run_blocks training (conv_layers self) (max_pool_layers self)
                 (batch_norm_layers self) x)),
     with_batch_norm_layers self
       (snd (run_blocks training (conv_layers self) (max_pool_layers self)
               (batch_norm_layers self) x))).
Proof.
  intros Hwf. unfold arange. rewrite for_range_blocks by (assumption || lia).
  reflexivity.
Qed.

(** ** [call] in two halves, and in the words of the specification *)

Lemma bind_ok {S A B} (c : M S A) (k : A -> M S B) (s : S) (a : A) (s' : S) :
  c s = (inr a, s') -> bind c k s = k a s'.
Proof. intros H. unfold bind. rewrite H. reflexivity. Qed.

Lemma bind_raise {S A B} (c : M S A) (k : A -> M S B) (s : S) (e : error) (s' : S) :
  c s = (inl e, s') -> bind c k s = (inl e, s').
Proof. intros H. unfold bind. rewrite H. reflexivity. Qed.

Ltac split_binds :=
  repeat (cbn [fst snd];
          match goal with
          | |- context [match ?r with inl _ => _ | inr _ => _ end] =>
              destruct r eqn:?
          | |- context [let (_, _) := ?r in _] => destruct r eqn:?
          end).

Lemma call_forward_head (support query : Tensor) (training : bool)
  (self : Prototypical) :
  call support query training self
  = (r <- forward_dists support query ;;
     lift (head (fst (fst r)) (snd (fst r)) (snd r))) self.
Proof.
  unfold call, forward_dists, head, bind, lift, ret, get.
  split_binds; try reflexivity; congruence.
Qed.


(** ** The forward pass on an episode *)

Lemma numel_episode (k n a b ch : nat) :
  numel [k; n; a; b; ch] = (k * n * a * b * ch)%nat.
Proof. unfold numel. simpl. ring. Qed.

Lemma reduce_mean_axis1_shape (dim : nat) (t : list (list (list R))) :
  length (reduce_mean_axis1 dim t) = length t
  /\ Forall (fun r => length r = dim) (reduce_mean_axis1 dim t).
Proof.
  unfold reduce_mean_axis1. split; [apply length_map|].
  apply Forall_map_intro. intros rows _. rewrite length_map. apply length_seq.
Qed.

Lemma last_dim_rows (d : nat) (z : list (list R)) :
  (0 < length z)%nat -> Forall (fun r => length r = d) z -> last_dim z = d.
Proof.
  intros Hz Hrows. destruct z as [|r t]; [simpl in Hz; lia|].
  apply Forall_inv in Hrows. exact Hrows.
Qed.

Section Episode.

Variable self : Prototypical.
Variables support query : Tensor.
Variables n_class n_support n_query : nat.

Hypothesis Hmodel : wf_model self.
Hypothesis Hsupport : episode_tensor self n_class n_support support.
Hypothesis Hquery : accepted_query self n_class n_query query.
Hypothesis Hclass : (0 < n_class)%nat.
Hypothesis Hshots : (0 < n_support)%nat.

Lemma support_pass_shape :
  length (flatten_layer (fst (support_pass self support n_class n_support)))
  = (n_class * n_support)%nat
  /\ Forall (fun r => length r = embedding_dim self)
       (flatten_layer (fst (support_pass self support n_class n_support))).
Proof.
  destruct Hmodel as [Hp Hb]. destruct Hsupport as [Hsh Hwf].
  destruct (reshape4_shape support (n_class * n_support) (w self) (h self)
              (c self) Hwf) as [_ Hx].
  { rewrite Hsh, numel_episode. reflexivity. }
  unfold support_pass, embedding_dim.
  apply flatten_layer_shape. apply run_blocks_shape; assumption.
Qed.

Lemma support_pass_state_wf :
  wf_model (with_batch_norm_layers self
              (snd (support_pass self support n_class n_support))).
Proof.
  destruct Hmodel as [Hp Hb]. split; simpl; [exact Hp|].
  unfold support_pass. rewrite run_blocks_state_length. exact Hb.
Qed.

Lemma query_embeddings_shape :
  length (query_embeddings self support query n_class n_support n_query)
  = (n_class * n_query)%nat
  /\ Forall (fun r => length r = embedding_dim self)
       (query_embeddings self support query n_class n_support n_query).
Proof.
  destruct Hmodel as [Hp Hb]. destruct Hquery as [_ [Hnum Hwf]].
  destruct (reshape4_shape query (n_class * n_query) (w self) (h self)
              (c self) Hwf Hnum) as [_ Hx].
  unfold query_embeddings, query_pass, embedding_dim.
  apply flatten_layer_shape. apply run_blocks_shape; try assumption.
  unfold support_pass. rewrite run_blocks_state_length. exact Hb.
Qed.

Lemma prototypes_shape :
  length (prototypes self support n_class n_support) = n_class
  /\ Forall (fun r => length r = embedding_dim self)
       (prototypes self support n_class n_support).
Proof.
  unfold prototypes.
  destruct (reduce_mean_axis1_shape (embedding_dim self)
              (chunk n_class n_support
                 (flatten_layer (fst (support_pass self support n_class n_support)))))
    as [Hl Hr].
  split; [rewrite Hl; apply chunk_length | exact Hr].
Qed.

(** Lines 64-94 on an episode: no exception; the distance matrix is that
    of the query embeddings against the prototypes, and the state left
    behind is the one the support pass left. *)
Lemma forward_dists_episode :
  forward_dists support query self
  = (inr (n_class, n_query,
          map (fun u => map (entry u) (prototypes self support n_class n_support))
              (query_embeddings self support query n_class n_support n_query)),
     with_batch_norm_layers self
       (snd (support_pass self support n_class n_support))).
Proof.
  destruct support_pass_shape as [Hzl Hzr].
  destruct query_embeddings_shape as [Hql Hqr].
  destruct prototypes_shape as [Hpl Hpr].
  pose proof support_pass_state_wf as Hwf'.
  destruct Hsupport as [Hsh Hwf]. destruct Hquery as [Hshq [Hnumq Hwfq]].
  destruct (reshape4_shape support (n_class * n_support) (w self) (h self)
              (c self) Hwf) as [Hrs _].
  { rewrite Hsh, numel_episode. reflexivity. }
  destruct (reshape4_shape query (n_class * n_query) (w self) (h self)
              (c self) Hwfq Hnumq) as [Hrq _].
  unfold forward_dists.
  rewrite (bind_ok _ _ self n_class self)
    by (unfold lift, shape_at; rewrite Hsh; reflexivity).
  rewrite (bind_ok _ _ self n_support self)
    by (unfold lift, shape_at; rewrite Hsh; reflexivity).
  rewrite (bind_ok _ _ self n_query self)
    by (unfold lift; rewrite Hshq; reflexivity).
  rewrite (bind_ok _ _ self self self) by reflexivity.
  rewrite (bind_ok _ _ self _ self) by (unfold lift; rewrite Hrs; reflexivity).
  rewrite (bind_ok _ _ self self self) by reflexivity.
  rewrite (bind_ok _ _ self _ _ (loop_run_blocks true _ self Hmodel)).
  fold (support_pass self support n_class n_support).
  set (z_support := flatten_layer (fst (support_pass self support n_class n_support))) in *.
  set (self' := with_batch_norm_layers self
                  (snd (support_pass self support n_class n_support))) in *.
  assert (Hld : last_dim z_support = embedding_dim self)
    by (apply last_dim_rows; [rewrite Hzl; apply Nat.mul_pos_pos; assumption
                             | exact Hzr]).
  rewrite (bind_ok _ _ self' (chunk n_class n_support z_support) self').
  2:{ unfold lift, reshape3.
      rewrite (concat_rows_length (embedding_dim self)) by exact Hzr.
      rewrite Hld, Hzl, Nat.eqb_refl.
      rewrite chunk_chunk_concat by assumption. reflexivity. }
  rewrite (bind_ok _ _ self' self' self') by reflexivity.
  rewrite (bind_ok _ _ self' _ self')
    by (unfold lift; cbn [w h c self' with_batch_norm_layers];
        rewrite Hrq; reflexivity).
  rewrite (bind_ok _ _ self' self' self') by reflexivity.
  rewrite (bind_ok _ _ self' _ _ (loop_run_blocks false _ self' Hwf')).
  cbn [conv_layers max_pool_layers batch_norm_layers with_batch_norm_layers self'].
  rewrite run_blocks_inference_state.
  fold (query_pass self (snd (support_pass self support n_class n_support))
          query n_class n_query).
  fold (query_embeddings self support query n_class n_support n_query).
  rewrite Hld. fold z_support. fold (prototypes self support n_class n_support).
  fold self'.
  rewrite (bind_ok _ _ self' _ self')
    by (unfold lift;
        rewrite (calc_euclidian_dists_rows (embedding_dim self)) by assumption;
        reflexivity).
  reflexivity.
Qed.

End Episode.

(** ** Loss and accuracy of an episode *)

Lemma episode_tensor_accepted (self : Prototypical) (k n : nat) (t : Tensor) :
  episode_tensor self k n t -> accepted_query self k n t.
Proof.
  intros [Hsh Hwf]. repeat split.
  - unfold shape_at. rewrite Hsh. reflexivity.
  - rewrite Hsh. apply numel_episode.
  - exact Hwf.
Qed.

Section EpisodeResults.

Variable self : Prototypical.
Variables support query : Tensor.
Variable training : bool.
Variables n_class n_support n_query : nat.

Hypothesis Hmodel : wf_model self.
Hypothesis Hsupport : episode_tensor self n_class n_support support.
Hypothesis Hquery : accepted_query self n_class n_query query.
Hypothesis Hclass : (0 < n_class)%nat.
Hypothesis Hshots : (0 < n_support)%nat.
Hypothesis Hqueries : (0 < n_query)%nat.

Abbreviation dists :=
  (episode_distances self support query n_class n_support n_query).

Lemma episode_dists :
  calc_euclidian_dists
    (query_embeddings self support query n_class n_support n_query)
    (prototypes self support n_class n_support) = inr dists
  /\ length dists = (n_class * n_query)%nat
  /\ Forall (fun row => length row = n_class) dists.
Proof.
  destruct (query_embeddings_shape self support query n_class n_support n_query
              Hmodel Hquery) as [Hql Hqr].
  destruct (prototypes_shape self support n_class n_support) as [Hpl Hpr].
  split; [apply (calc_euclidian_dists_rows (embedding_dim self)); assumption|].
  unfold episode_distances. split; [rewrite length_map; exact Hql|].
  apply Forall_map_intro. intros u _. rewrite length_map. exact Hpl.
Qed.

(** The call returns, with the loss and the accuracy of the specification
    and the state the support pass left. *)
Lemma call_episode :
  call support query training self
  = (inr (nll_spec n_class n_query dists, accuracy_spec n_class n_query dists),
     with_batch_norm_layers self
       (snd (support_pass self support n_class n_support))).
Proof.
  destruct episode_dists as [_ [Hlen Hrows]].
  rewrite call_forward_head.
  rewrite (bind_ok _ _ _ _ _
             (forward_dists_episode self support query n_class n_support
                n_query Hmodel Hsupport Hquery Hclass Hshots)).
  unfold lift. cbn [fst snd].
  fold (episode_distances self support query n_class n_support n_query).
  rewrite head_spec; [reflexivity | apply Nat.mul_pos_pos; assumption
                      | exact Hlen | exact Hrows].
Qed.

End EpisodeResults.

Lemma log_prob_log_softmax (n_class : nat) (dists : list (list R)) (q j : nat) :
  length (nth q dists []) = n_class -> (j < n_class)%nat ->
  log_prob dists q j = nth j (log_softmax (map Ropp (nth q dists []))) 0.
Proof.
  intros Hrow Hj. unfold log_prob. symmetry. apply nth_log_softmax_prob.
  rewrite length_map, Hrow. exact Hj.
Qed.

(** C1.  On every episode (support of shape [n_class, n_support, w, h, c],
    query of shape [n_class, n_query, w, h, c], all three counts positive)
    [call] returns, and its loss is the negative mean, over the
    [n_class * n_query] queries, of the log-softmax probability of the query's
    true class; the logits of query [q] are its negated distances to the
    [n_class] prototypes, and the true class of [q] is the class block
    [q / n_query] it lies in.  That log-probability is the entry of
    [tf.nn.log_softmax] the code reads. *)
Theorem call_loss_is_negative_mean_log_prob
  (self : Prototypical) (support query : Tensor) (training : bool)
  (n_class n_support n_query : nat) :
  wf_model self ->
  episode_tensor self n_class n_support support ->
  episode_tensor self n_class n_query query ->
  (0 < n_class)%nat -> (0 < n_support)%nat -> (0 < n_query)%nat ->
  exists dists acc self',
    calc_euclidian_dists
      (query_embeddings self support query n_class n_support n_query)
      (prototypes self support n_class n_support) = inr dists
    /\ call support query training self
       = (inr (- (big_sum (n_class * n_query)
                    (fun q => ln (softmax_prob (map Ropp (nth q dists []))
                                    (q / n_query)))
                  / INR (n_class * n_query)), acc), self')
    /\ forall q, (q < n_class * n_query)%nat ->
         ln (softmax_prob (map Ropp (nth q dists [])) (q / n_query))
         = nth (q / n_query) (log_softmax (map Ropp (nth q dists []))) 0.
Proof.
  intros Hmodel Hsupport Hquery Hclass Hshots Hqueries.
  apply episode_tensor_accepted in Hquery.
  destruct (episode_dists self support query n_class n_support n_query
              Hmodel Hquery) as [Hd [Hlen Hrows]].
  eexists. exists (accuracy_spec n_class n_query
            (map (fun u => map (entry u) (prototypes self support n_class n_support))
               (query_embeddings self support query n_class n_support n_query))).
  eexists.
  split; [exact Hd|]. split.
  - apply (call_episode self support query training n_class n_support n_query);
      assumption.
  - intros q Hq.
    apply (log_prob_log_softmax n_class).
    + apply Forall_nth_length; [exact Hrows | rewrite Hlen; exact Hq].
    + apply Nat.Div0.div_lt_upper_bound. rewrite Nat.mul_comm. exact Hq.
Qed.

Lemma call_loss_is_negative_mean_log_prob_witness :
  exists dists acc self',
    calc_euclidian_dists
      (query_embeddings example_model example_support example_query 1 1 1)
      (prototypes example_model example_support 1 1) = inr dists
    /\ call example_support example_query false example_model
       = (inr (- (big_sum (1 * 1)
                    (fun q => ln (softmax_prob (map Ropp (nth q dists []))
                                    (q / 1)))
                  / INR (1 * 1)), acc), self')
    /\ forall q, (q < 1 * 1)%nat ->
         ln (softmax_prob (map Ropp (nth q dists [])) (q / 1))
         = nth (q / 1) (log_softmax (map Ropp (nth q dists []))) 0.
Proof.
  apply (call_loss_is_negative_mean_log_prob example_model example_support
           example_query false 1 1 1);
    [split; reflexivity | split; reflexivity | split; reflexivity
     | lia | lia | lia].
Defined.

Lemma n_correct_le (n_class n_query : nat) (dists : list (list R)) :
  (n_correct n_class n_query dists <= n_class * n_query)%nat.
Proof.
  unfold n_correct.
  rewrite <- (length_seq (n_class * n_query) 0) at 2.
  generalize (seq 0 (n_class * n_query)) as l.
  induction l as [|q t IH]; simpl; [lia|].
  destruct (is_correct n_query dists q); simpl; lia.
Qed.

Lemma fraction_bounds (k n : nat) :
  (0 < n)%nat -> (k <= n)%nat -> 0 <= INR k / INR n <= 1.
Proof.
  intros Hn Hk.
  assert (Hpos : 0 < INR n) by (apply lt_0_INR; exact Hn).
  assert (Hk0 : 0 <= INR k) by apply pos_INR.
  assert (Hkn : INR k <= INR n) by (apply le_INR; exact Hk).
  split.
  - apply Rmult_le_pos; [exact Hk0 | left; apply Rinv_0_lt_compat; exact Hpos].
  - apply (Rmult_le_reg_r (INR n)); [exact Hpos|].
    unfold Rdiv. rewrite Rmult_assoc, Rinv_l by lra. lra.
Qed.

(** C3.  On every episode [call] returns, and its accuracy is the number of
    queries whose predicted class is the true one divided by the number
    [n_class * n_query] of queries.  The predicted class of a query is the
    first index at which its row of log-probabilities is maximal, the true
    class of query [q] is [q / n_query].  Hence the accuracy is a multiple of
    [1 / (n_class * n_query)] and lies between 0 and 1. *)
Theorem call_accuracy_is_fraction_correct
  (self : Prototypical) (support query : Tensor) (training : bool)
  (n_class n_support n_query : nat) :
  wf_model self ->
  episode_tensor self n_class n_support support ->
  episode_tensor self n_class n_query query ->
  (0 < n_class)%nat -> (0 < n_support)%nat -> (0 < n_query)%nat ->
  exists dists loss acc self',
    calc_euclidian_dists
      (query_embeddings self support query n_class n_support n_query)
      (prototypes self support n_class n_support) = inr dists
    /\ call support query training self = (inr (loss, acc), self')
    /\ acc = INR (length (filter (fun q => Nat.eqb (predicted dists q) (q / n_query))
                            (seq 0 (n_class * n_query))))
             * (1 / INR (n_class * n_query))
    /\ (forall q, (q < n_class * n_query)%nat ->
          is_first_argmax (log_softmax (map Ropp (nth q dists [])))
            (predicted dists q))
    /\ (length (filter (fun q => Nat.eqb (predicted dists q) (q / n_query))
                  (seq 0 (n_class * n_query))) <= n_class * n_query)%nat
    /\ 0 <= acc <= 1.
Proof.
  intros Hmodel Hsupport Hquery Hclass Hshots Hqueries.
  apply episode_tensor_accepted in Hquery.
  destruct (episode_dists self support query n_class n_support n_query
              Hmodel Hquery) as [Hd [Hlen Hrows]].
  eexists. eexists. eexists. eexists.
  split; [exact Hd|]. split.
  { apply (call_episode self support query training n_class n_support n_query);
      assumption. }
  split.
  { unfold accuracy_spec, n_correct, is_correct. lra. }
  split.
  { intros q Hq. unfold predicted. apply argmax_is_first_argmax.
    rewrite log_softmax_length, length_map.
    rewrite (Forall_nth_length n_class) by (try exact Hrows; rewrite Hlen; exact Hq).
    lia. }
  split.
  { apply n_correct_le. }
  apply fraction_bounds; [apply Nat.mul_pos_pos; assumption | apply n_correct_le].
Qed.

Lemma call_accuracy_is_fraction_correct_witness :
  exists dists loss acc self',
    calc_euclidian_dists
      (query_embeddings example_model example_support example_query 1 1 1)
      (prototypes example_model example_support 1 1) = inr dists
    /\ call example_support example_query true example_model
       = (inr (loss, acc), self')
    /\ acc = INR (length (filter (fun q => Nat.eqb (predicted dists q) (q / 1))
                            (seq 0 (1 * 1))))
             * (1 / INR (1 * 1))
    /\ (forall q, (q < 1 * 1)%nat ->
          is_first_argmax (log_softmax (map Ropp (nth q dists [])))
            (predicted dists q))
    /\ (length (filter (fun q => Nat.eqb (predicted dists q) (q / 1))
                  (seq 0 (1 * 1))) <= 1 * 1)%nat
    /\ 0 <= acc <= 1.
Proof.
  apply (call_accuracy_is_fraction_correct example_model example_support
           example_query true 1 1 1);
    [split; reflexivity | split; reflexivity | split; reflexivity
     | lia | lia | lia].
Defined.





(** ** The training flag *)

(** Training mode reads the batch, not the moving statistics: two lists of
    layers with the same scales and offsets give the same output. *)
Lemma run_blocks_training_ignores_moving_statistics (convs : list Conv2D)
  (pools : list MaxPool2D) (bns1 bns2 : list BatchNormalization)
  (x : list (list (list (list R)))) :
  Forall2 (fun bn1 bn2 => gamma bn1 = gamma bn2 /\ beta bn1 = beta bn2) bns1 bns2 ->
  fst (run_blocks true convs pools bns1 x) = fst (run_blocks true convs pools bns2 x).
Proof.
  intros Hbns. revert convs pools x.
  induction Hbns as [|bn1 bn2 bns1 bns2 [Hg Hb] _ IH]; intros convs pools x.
  - destruct convs; [reflexivity|]. destruct pools; reflexivity.
  - destruct convs as [|conv convs]; [reflexivity|].
    destruct pools as [|pool pools]; [reflexivity|].
    cbn [run_blocks fst].
    assert (Hout : fst (BatchNormalization_call bn1
                          (MaxPool2D_call pool (Conv2D_call conv x)) true)
                   = fst (BatchNormalization_call bn2
                            (MaxPool2D_call pool (Conv2D_call conv x)) true)).
    { unfold BatchNormalization_call, normalize. cbn [fst].
      rewrite Hg, Hb. reflexivity. }
    rewrite Hout. apply IH.
Qed.

(** Inference mode reads the moving statistics, not the batch: the images of
    a batch are embedded one by one. *)
Lemma run_blocks_inference_image_by_image (convs : list Conv2D)
  (pools : list MaxPool2D) (bns : list BatchNormalization)
  (x1 x2 : list (list (list (list R)))) :
  fst (run_blocks false convs pools bns (x1 ++ x2))
  = fst (run_blocks false convs pools bns x1)
    ++ fst (run_blocks false convs pools bns x2).
Proof.
  revert pools bns x1 x2.
  induction convs as [|conv convs IH]; intros pools bns x1 x2; [reflexivity|].
  destruct pools as [|pool pools]; [reflexivity|].
  destruct bns as [|bn bns]; [reflexivity|].
  cbn [run_blocks fst].
  unfold BatchNormalization_call. cbn [fst].
  unfold normalize, MaxPool2D_call, Conv2D_call.
  rewrite !map_app. apply IH.
Qed.


(** ** Persistence *)

Lemma save_raises (depth : nat) (model_path : string) (s : Session) :
  save depth model_path s = (inl RecursionError, s).
Proof. induction depth as [|depth IH]; [reflexivity | exact IH]. Qed.

(** C5.  Whatever the path and the state, [save] does not return normally:
    with any bound [depth] on the stack it ends in RecursionError, having
    written nothing; without a bound there is no derivation of a return,
    since the only rule is the call of [save] by itself. *)
Theorem save_never_returns (model_path : string) (s : Session) :
  (forall depth, save depth model_path s = (inl RecursionError, s))
  /\ (forall s', ~ save_returns model_path s s').
Proof.
  split.
  - intros depth. apply save_raises.
  - intros s' H. induction H as [s s' _ IH]. exact IH.
Qed.

Lemma same_shape_vec_refl (u : list R) : same_shape_vec u u = true.
Proof. apply Nat.eqb_refl. Qed.

Lemma same_shape_list_refl {A} (same : A -> A -> bool) (l : list A) :
  (forall a, same a a = true) -> same_shape_list same l l = true.
Proof.
  intros H. induction l as [|a t IH]; [reflexivity|].
  simpl. rewrite H, IH. reflexivity.
Qed.

(** With the inherited method in place of the override the round trip works:
    a fresh instance of the same configuration, whose variables have the
    shapes of the saved ones, becomes the saved model. *)
Lemma Model_save_then_load_round_trip (model_path : string)
  (self fresh : Prototypical) (fs : FileSystem) :
  w fresh = w self -> h fresh = h self -> c fresh = c self ->
  max_pool_layers fresh = max_pool_layers self ->
  map filters (conv_layers fresh) = map filters (conv_layers self) ->
  same_shape_list same_shape_conv (conv_layers self) (conv_layers fresh) = true ->
  same_shape_list same_shape_bn (batch_norm_layers self) (batch_norm_layers fresh)
  = true ->
  exists fs',
    Model_save_then_load model_path fresh (self, fs) = (inr tt, (self, fs')).
Proof.
  intros Hw Hh Hc Hp Hf Hsc Hsb.
  exists (write_file fs model_path (get_weights self)).
  unfold Model_save_then_load, Model_save, load, load_weights, bind, get, put,
    raise.
  cbn [fst snd]. unfold write_file at 1. rewrite String.eqb_refl.
  cbn [conv_weights batch_norm_weights get_weights].
  rewrite Hsc, Hsb. cbn [andb].
  assert (Hconvs : map (fun lf => {| filters := filters (fst lf);
                                     kernel := kernel (snd lf);
                                     bias := bias (snd lf) |})
                       (combine (conv_layers fresh) (conv_layers self))
                   = conv_layers self).
  { clear - Hf. revert Hf.
    generalize (conv_layers fresh) as convs1, (conv_layers self) as convs.
    induction convs1 as [|cv1 convs1 IH]; intros [|cv convs] Hf;
      try discriminate; [reflexivity|].
    simpl in Hf. inversion Hf as [[Hf1 Hf2]].
    simpl. rewrite (IH convs Hf2), Hf1. destruct cv. reflexivity. }
  rewrite Hconvs, Hw, Hh, Hc, Hp.
  destruct self. reflexivity.
Qed.

(** The two example instances can stand for each other in that round trip. *)
Example Model_save_then_load_example :
  exists fs',
    Model_save_then_load "model.h5" example_fresh (example_model, empty_files)
    = (inr tt, (example_model, fs')).
Proof.
  apply Model_save_then_load_round_trip; reflexivity.
Qed.

(** C6 (what the code does).  The round trip of the specification does not
    take place: for every bound on the stack, saving [example_model] and
    loading into [example_fresh] ends in RecursionError at the [save], with
    no file written; and a [load] attempted after that finds no file. *)
Theorem save_then_load_fails (depth : nat) :
  save_then_load depth "model.h5" example_fresh (example_model, empty_files)
  = (inl RecursionError, (example_model, empty_files))
  /\ load "model.h5" (example_fresh, empty_files)
     = (inl (NotFoundError "model.h5"), (example_fresh, empty_files)).
Proof.
  split.
  - unfold save_then_load.
    apply bind_raise. apply save_raises.
  - reflexivity.
Qed.

(** ** Mismatched numbers of classes *)

Lemma reshape3_support_ok (d a b : nat) (z : list (list R)) :
  Forall (fun r => length r = d) z -> length z = (a * b)%nat ->
  exists t, reshape3 z a b (last_dim z) = inr t.
Proof.
  intros Hrows Hlen. unfold reshape3.
  rewrite (concat_rows_length d) by exact Hrows.
  destruct z as [|r t].
  - simpl in *. rewrite <- Hlen. simpl. eexists. reflexivity.
  - rewrite (last_dim_rows d) by (simpl; lia || exact Hrows).
    rewrite Hlen, Nat.eqb_refl. eexists. reflexivity.
Qed.

Lemma numel_mismatch (k n_class n_query a b ch : nat) :
  k <> n_class -> (0 < n_query)%nat -> (0 < a)%nat -> (0 < b)%nat ->
  (0 < ch)%nat ->
  Nat.eqb (numel [k; n_query; a; b; ch]) (n_class * n_query * a * b * ch) = false.
Proof.
  intros Hk Hq Ha Hb Hc. apply Nat.eqb_neq. rewrite numel_episode.
  intros Heq. apply Hk.
  apply Nat.mul_cancel_r in Heq; [|lia].
  apply Nat.mul_cancel_r in Heq; [|lia].
  apply Nat.mul_cancel_r in Heq; [|lia].
  apply Nat.mul_cancel_r in Heq; [|lia].
  exact Heq.
Qed.

(** C8.  When the support tensor has [n_class] classes and the query tensor,
    otherwise shaped as a query of the episode, has [k <> n_class] of them,
    the reshape of the query to [n_class * n_query, w, h, c] (line 85) is
    rejected and [call] ends in that exception; nothing is returned.  The
    support path has run by then: the state left behind is the one the
    support pass leaves. *)
Theorem call_rejects_mismatched_n_class
  (self : Prototypical) (support query : Tensor) (training : bool)
  (n_class n_support k n_query : nat) :
  wf_model self ->
  episode_tensor self n_class n_support support ->
  shape query = [k; n_query; w self; h self; c self] ->
  k <> n_class ->
  (0 < n_query)%nat -> (0 < w self)%nat -> (0 < h self)%nat -> (0 < c self)%nat ->
  reshape4 query (n_class * n_query) (w self) (h self) (c self)
  = inl (InvalidArgumentError "Reshape")
  /\ call support query training self
     = (inl (InvalidArgumentError "Reshape"),
        with_batch_norm_layers self
          (snd (support_pass self support n_class n_support))).
Proof.
  intros Hmodel Hsupport Hshq Hk Hq Hw Hh Hc.
  assert (Hrq : reshape4 query (n_class * n_query) (w self) (h self) (c self)
                = inl (InvalidArgumentError "Reshape")).
  { unfold reshape4. rewrite Hshq, numel_mismatch by assumption. reflexivity. }
  split; [exact Hrq|].
  destruct (support_pass_shape self support n_class n_support Hmodel Hsupport)
    as [Hzl Hzr].
  destruct Hsupport as [Hsh Hwf].
  destruct (reshape4_shape support (n_class * n_support) (w self) (h self)
              (c self) Hwf) as [Hrs _].
  { rewrite Hsh, numel_episode. reflexivity. }
  destruct (reshape3_support_ok _ n_class n_support _ Hzr Hzl) as [t Ht].
  rewrite call_forward_head. apply bind_raise.
  unfold forward_dists.
  rewrite (bind_ok _ _ self n_class self)
    by (unfold lift, shape_at; rewrite Hsh; reflexivity).
  rewrite (bind_ok _ _ self n_support self)
    by (unfold lift, shape_at; rewrite Hsh; reflexivity).
  rewrite (bind_ok _ _ self n_query self)
    by (unfold lift, shape_at; rewrite Hshq; reflexivity).
  rewrite (bind_ok _ _ self self self) by reflexivity.
  rewrite (bind_ok _ _ self _ self) by (unfold lift; rewrite Hrs; reflexivity).
  rewrite (bind_ok _ _ self self self) by reflexivity.
  rewrite (bind_ok _ _ self _ _ (loop_run_blocks true _ self Hmodel)).
  fold (support_pass self support n_class n_support).
  set (self' := with_batch_norm_layers self
                  (snd (support_pass self support n_class n_support))).
  rewrite (bind_ok _ _ self' t self') by (unfold lift; rewrite Ht; reflexivity).
  rewrite (bind_ok _ _ self' self' self') by reflexivity.
  apply bind_raise. unfold lift.
  cbn [w h c self' with_batch_norm_layers]. rewrite Hrq. reflexivity.
Qed.

Lemma call_rejects_mismatched_n_class_witness :
  reshape4 example_query_two_classes (1 * 1) (w example_model) (h example_model)
    (c example_model)
  = inl (InvalidArgumentError "Reshape")
  /\ call example_support example_query_two_classes false example_model
     = (inl (InvalidArgumentError "Reshape"),
        with_batch_norm_layers example_model
          (snd (support_pass example_model example_support 1 1))).
Proof.
  apply (call_rejects_mismatched_n_class example_model example_support
           example_query_two_classes false 1 1 2 1);
    [split; reflexivity | split; reflexivity | reflexivity | discriminate
     | lia | simpl; lia | simpl; lia | simpl; lia].
Defined.

(** C8, as stated, fails: a query tensor whose leading dimension differs
    from [n_class] can hold exactly [n_class * n_query] images of the
    instance's size.  With two support classes, the one-class query
    [example_query_tall] is reshaped to two images and [call] returns a
    result. *)
Lemma call_accepts_query_of_other_n_class :
  shape_at example_support_two_classes 0 = inr 2%nat
  /\ shape_at example_query_tall 0 = inr 1%nat
  /\ exists loss acc self',
       call example_support_two_classes example_query_tall false example_model
       = (inr (loss, acc), self').
Proof.
  split; [reflexivity|]. split; [reflexivity|].
  eexists. eexists. eexists.
  apply (call_episode example_model example_support_two_classes
           example_query_tall false 2 1 1).
  - split; reflexivity.
  - split; reflexivity.
  - repeat split.
  - lia.
  - lia.
  - lia.
Qed.

(** ** What a call assigns *)




(** ** The zero network on any batch *)













(** * Further properties of the code *)

(** ** calc_euclidian_dists: symmetry and incompatible dimensions *)

Lemma mean_sq_diff_sym (d : nat) (u v : list R) :
  mean_sq_diff d u v = mean_sq_diff d v u.
Proof.
  unfold mean_sq_diff. f_equal. apply big_sum_ext. intros k _. ring.
Qed.

(** Swapping the two arguments transposes the matrix: the distance of row i
    of [x] to row j of [y] is the distance of row j of [y] to row i of [x]. *)
Theorem calc_euclidian_dists_transpose (d : nat) (x y : list (list R)) :
  Forall (fun r => length r = d) x ->
  Forall (fun r => length r = d) y ->
  exists dxy dyx,
    calc_euclidian_dists x y = inr dxy
    /\ calc_euclidian_dists y x = inr dyx
    /\ forall i j, (i < length x)%nat -> (j < length y)%nat ->
         nth j (nth i dxy []) 0 = nth i (nth j dyx []) 0.
Proof.
  intros Hx Hy.
  exists (map (fun u => map (entry u) y) x), (map (fun u => map (entry u) x) y).
  split; [apply (calc_euclidian_dists_rows d); assumption|].
  split; [apply (calc_euclidian_dists_rows d); assumption|].
  intros i j Hi Hj. rewrite !nth_entry by assumption.
  rewrite !(entry_mean_sq_diff d) by (apply Forall_nth_length; assumption).
  apply mean_sq_diff_sym.
Qed.

Lemma calc_euclidian_dists_transpose_witness :
  exists dxy dyx,
    calc_euclidian_dists [[1; 2]; [3; 5]] [[1; 4]] = inr dxy
    /\ calc_euclidian_dists [[1; 4]] [[1; 2]; [3; 5]] = inr dyx
    /\ forall i j, (i < length [[1; 2]; [3; 5]])%nat -> (j < length [[1; 4]])%nat ->
         nth j (nth i dxy []) 0 = nth i (nth j dyx []) 0.
Proof.
  apply (calc_euclidian_dists_transpose 2); repeat constructor.
Defined.

(** Rows of different feature dimensions, neither of them 1, cannot be
    subtracted: the function raises instead of returning a matrix. *)
Theorem calc_euclidian_dists_rejects_dimensions (dx dy : nat)
  (x y : list (list R)) :
  x <> [] -> y <> [] ->
  Forall (fun r => length r = dx) x ->
  Forall (fun r => length r = dy) y ->
  dx <> dy -> dx <> 1%nat -> dy <> 1%nat ->
  calc_euclidian_dists x y = inl (InvalidArgumentError "Sub").
Proof.
  intros Hx0 Hy0 Hx Hy Hne Hx1 Hy1.
  destruct x as [|u xs]; [contradiction|].
  destruct y as [|v ys]; [contradiction|].
  apply Forall_inv in Hx. apply Forall_inv in Hy.
  unfold calc_euclidian_dists, elementwise3.
  rewrite tiled_x, tiled_y. simpl.
  unfold broadcast_last. rewrite Hx, Hy.
  destruct (Nat.eqb_spec dx dy); [contradiction|].
  destruct (Nat.eqb_spec dx 1); [contradiction|].
  destruct (Nat.eqb_spec dy 1); [contradiction|].
  reflexivity.
Qed.

Lemma calc_euclidian_dists_rejects_dimensions_witness :
  calc_euclidian_dists [[1; 2]] [[1; 2; 3]] = inl (InvalidArgumentError "Sub").
Proof.
  apply (calc_euclidian_dists_rejects_dimensions 2 3);
    [discriminate | discriminate | repeat constructor | repeat constructor
     | lia | lia | lia].
Defined.

(** When the rows of [y] hold a single feature and those of [x] several, the
    subtraction broadcasts instead of failing: entry (i, j) is the mean over
    the features of [x] of the squared difference to that single value. *)
Theorem calc_euclidian_dists_broadcasts_single_feature (dx : nat)
  (x y : list (list R)) :
  (2 <= dx)%nat ->
  Forall (fun r => length r = dx) x ->
  Forall (fun r => length r = 1%nat) y ->
  exists dists,
    calc_euclidian_dists x y = inr dists
    /\ length dists = length x
    /\ Forall (fun row => length row = length y) dists
    /\ forall i j, (i < length x)%nat -> (j < length y)%nat ->
         nth j (nth i dists []) 0
         = big_sum dx (fun k => (nth k (nth i x []) 0 - nth 0 (nth j y []) 0) ^ 2)
           / INR dx.
Proof.
  intros Hdx Hx Hy.
  set (cell := fun (u v : list R) =>
                 reduce_mean (map (fun r => r ^ 2) (map (fun a => a - hd 0 v) u))).
  assert (Hcalc : calc_euclidian_dists x y = inr (map (fun u => map (cell u) y) x)).
  { unfold calc_euclidian_dists, elementwise3.
    rewrite tiled_x, tiled_y.
    rewrite (zip_exact_ok _ _
               (fun (us vs : list (list R)) =>
                  map (fun p => map (fun a => a - hd 0 (snd p)) (fst p))
                      (combine us vs))).
    - rewrite combine_map_repeat, map_map.
      unfold reduce_mean_axis2, pow2_3. rewrite !map_map.
      f_equal. apply map_ext_in. intros u Hu. simpl.
      rewrite combine_repeat_l, !map_map. apply map_ext. intros v. reflexivity.
    - rewrite length_map, repeat_length. reflexivity.
    - intros us vs Hin.
      rewrite combine_map_repeat in Hin. apply in_map_iff in Hin.
      destruct Hin as [u [Heq Hu]]. inversion Heq; subst us vs.
      apply (zip_exact_ok _ _ (fun u v : list R => map (fun a => a - hd 0 v) u)).
      + rewrite repeat_length. reflexivity.
      + intros u' v Hin. apply in_combine_l in Hin as Hl.
        apply in_combine_r in Hin. apply repeat_spec in Hl. subst u'.
        unfold broadcast_last.
        rewrite Forall_forall in Hx, Hy. rewrite (Hx u Hu), (Hy v Hin).
        destruct (Nat.eqb_spec dx 1) as [H1|_]; [lia|].
        reflexivity. }
  exists (map (fun u => map (cell u) y) x).
  split; [exact Hcalc|]. split; [apply length_map|]. split.
  { apply Forall_map_intro. intros u _. apply length_map. }
  intros i j Hi Hj.
  rewrite (nth_indep _ [] (map (cell []) y)) by (rewrite length_map; exact Hi).
  rewrite (map_nth (fun u => map (cell u) y) x [] i).
  rewrite (nth_indep _ 0 (cell (nth i x []) [])) by (rewrite length_map; exact Hj).
  rewrite (map_nth (cell (nth i x [])) y [] j).
  unfold cell, reduce_mean. rewrite !length_map.
  rewrite (Forall_nth_length dx x i Hx Hi).
  f_equal. rewrite reduce_sum_big_sum, !length_map.
  rewrite (Forall_nth_length dx x i Hx Hi).
  apply big_sum_ext. intros k Hk.
  rewrite map_map.
  rewrite (nth_indep _ 0 ((fun a => (a - hd 0 (nth j y [])) ^ 2) 0))
    by (rewrite length_map, (Forall_nth_length dx x i Hx Hi); exact Hk).
  rewrite (map_nth (fun a => (a - hd 0 (nth j y [])) ^ 2)).
  pose proof (Forall_nth_length 1 y j Hy Hj) as Hv.
  destruct (nth j y []) as [|b [|b' t]]; simpl in Hv; try discriminate.
  reflexivity.
Qed.

Lemma calc_euclidian_dists_broadcasts_single_feature_witness :
  exists dists,
    calc_euclidian_dists [[1; 2]; [3; 5]] [[4]] = inr dists
    /\ length dists = length [[1; 2]; [3; 5]]
    /\ Forall (fun row => length row = length [[4]]) dists
    /\ forall i j, (i < length [[1; 2]; [3; 5]])%nat -> (j < length [[4]])%nat ->
         nth j (nth i dists []) 0
         = big_sum 2 (fun k => (nth k (nth i [[1; 2]; [3; 5]] []) 0
                                - nth 0 (nth j [[4]] []) 0) ^ 2)
           / INR 2.
Proof.
  apply (calc_euclidian_dists_broadcasts_single_feature 2);
    [lia | repeat constructor | repeat constructor].
Defined.

(** ** call: the prediction is the nearest prototype *)









(** ** call: arguments it rejects before running a layer *)

(** A support or a query tensor of rank below 2 has no second dimension to
    read (lines 64-66): the call raises IndexError and no layer has run. *)
Theorem call_raises_IndexError_on_low_rank
  (self : Prototypical) (support query : Tensor) (training : bool) :
  (length (shape support) < 2)%nat \/ (length (shape query) < 2)%nat ->
  call support query training self = (inl IndexError, self).
Proof.
  intros Hrank. rewrite call_forward_head. apply bind_raise.
  unfold forward_dists, bind, lift, shape_at.
  destruct (shape support) as [|a [|b l]]; simpl; try reflexivity.
  destruct Hrank as [Hs|Hq]; [simpl in Hs; lia|].
  destruct (shape query) as [|a' [|b' l']]; simpl; try reflexivity.
  simpl in Hq. lia.
Qed.

Lemma call_raises_IndexError_on_low_rank_witness :
  call (mkTensor [256]%nat (repeat 0 256)) example_query false example_model
  = (inl IndexError, example_model).
Proof.
  apply call_raises_IndexError_on_low_rank. left. simpl. lia.
Defined.

(** When the support tensor does not hold exactly
    [n_class * n_support * w * h * c] numbers, for the image size the
    instance was constructed with, the first reshape (line 74) is rejected:
    the call raises and no layer has run. *)
Theorem call_rejects_support_of_other_size
  (self : Prototypical) (support query : Tensor) (training : bool)
  (n_class n_support n_query : nat) :
  shape_at support 0 = inr n_class ->
  shape_at support 1 = inr n_support ->
  shape_at query 1 = inr n_query ->
  numel (shape support) <> (n_class * n_support * w self * h self * c self)%nat ->
  call support query training self
  = (inl (InvalidArgumentError "Reshape"), self).
Proof.
  intros H0 H1 Hq Hnum. rewrite call_forward_head. apply bind_raise.
  unfold forward_dists.
  rewrite (bind_ok _ _ self n_class self) by (unfold lift; rewrite H0; reflexivity).
  rewrite (bind_ok _ _ self n_support self) by (unfold lift; rewrite H1; reflexivity).
  rewrite (bind_ok _ _ self n_query self) by (unfold lift; rewrite Hq; reflexivity).
  rewrite (bind_ok _ _ self self self) by reflexivity.
  apply bind_raise. unfold lift, reshape4.
  destruct (Nat.eqb_spec (numel (shape support))
              (n_class * n_support * w self * h self * c self));
    [contradiction | reflexivity].
Qed.

Lemma call_rejects_support_of_other_size_witness :
  call (mkTensor [1; 1; 28; 28; 1]%nat (repeat 0 784)) example_query false
    example_model
  = (inl (InvalidArgumentError "Reshape"), example_model).
Proof.
  apply (call_rejects_support_of_other_size example_model _ example_query false
           1 1 1); [reflexivity | reflexivity | reflexivity |].
  vm_compute. discriminate.
Defined.

(** ** call: what it never assigns *)

Lemma same_parameters_refl (s : Prototypical) : same_parameters s s.
Proof. repeat split. Qed.

Lemma same_parameters_trans (s1 s2 s3 : Prototypical) :
  same_parameters s1 s2 -> same_parameters s2 s3 -> same_parameters s1 s3.
Proof.
  unfold same_parameters.
  intros [Hw [Hh [Hc [Hcv [Hp [Hg Hb]]]]]] [Hw' [Hh' [Hc' [Hcv' [Hp' [Hg' Hb']]]]]].
  repeat split; congruence.
Qed.

Lemma keeps_ret {A} (a : A) : keeps_parameters (ret a).
Proof. intros s. apply same_parameters_refl. Qed.

Lemma keeps_lift {A} (r : result A) : keeps_parameters (lift r).
Proof. intros s. apply same_parameters_refl. Qed.

Lemma keeps_get : keeps_parameters get.
Proof. intros s. apply same_parameters_refl. Qed.

Lemma keeps_bind {A B} (m : M Prototypical A) (k : A -> M Prototypical B) :
  keeps_parameters m -> (forall a, keeps_parameters (k a)) ->
  keeps_parameters (bind m k).
Proof.
  intros Hm Hk s. unfold bind. specialize (Hm s).
  destruct (m s) as [[e|a] s']; simpl in *; [exact Hm|].
  apply (same_parameters_trans s s'); [exact Hm | apply Hk].
Qed.

Lemma keeps_for_range {A} (idxs : list nat) (body : nat -> A -> M Prototypical A)
  (x : A) :
  (forall i a, keeps_parameters (body i a)) ->
  keeps_parameters (for_range idxs body x).
Proof.
  intros Hbody. revert x. induction idxs as [|i rest IH]; intros x; simpl.
  - apply keeps_ret.
  - apply keeps_bind; [apply Hbody | exact IH].
Qed.

Lemma map_list_update_same {A B} (f : A -> B) (l : list A) (i : nat) (a a' : A) :
  nth_error l i = Some a -> f a' = f a -> map f (list_update i a' l) = map f l.
Proof.
  revert i. induction l as [|b t IH]; intros [|i] Hn Hf; simpl in *;
    try discriminate.
  - inversion Hn; subst. rewrite Hf. reflexivity.
  - rewrite (IH i Hn Hf). reflexivity.
Qed.

Lemma keeps_call_conv (i : nat) (x : list (list (list (list R)))) :
  keeps_parameters (call_conv i x).
Proof.
  unfold call_conv. apply keeps_bind; [apply keeps_get|]. intros self.
  apply keeps_bind; [apply keeps_lift|]. intros conv. apply keeps_ret.
Qed.

Lemma keeps_call_max_pool (i : nat) (x : list (list (list (list R)))) :
  keeps_parameters (call_max_pool i x).
Proof.
  unfold call_max_pool. apply keeps_bind; [apply keeps_get|]. intros self.
  apply keeps_bind; [apply keeps_lift|]. intros pool. apply keeps_ret.
Qed.

Lemma keeps_call_batch_norm (i : nat) (x : list (list (list (list R))))
  (training : bool) :
  keeps_parameters (call_batch_norm i x training).
Proof.
  intros s. unfold call_batch_norm, bind, get, lift, put, ret, index.
  destruct (nth_error (batch_norm_layers s) i) as [bn|] eqn:Hbn; simpl;
    [|apply same_parameters_refl].
  unfold same_parameters. simpl.
  repeat (split; [reflexivity|]).
  split; apply (map_list_update_same _ _ _ bn); try exact Hbn;
    destruct training; reflexivity.
Qed.

Lemma keeps_block (training : bool) (i : nat) (x : list (list (list (list R)))) :
  keeps_parameters (x <- call_conv i x ;;
                    x <- call_max_pool i x ;;
                    call_batch_norm i x training).
Proof.
  apply keeps_bind; [apply keeps_call_conv|]. intros x1.
  apply keeps_bind; [apply keeps_call_max_pool|]. intros x2.
  apply keeps_call_batch_norm.
Qed.

Lemma keeps_call (support query : Tensor) (training : bool) :
  keeps_parameters (call support query training).
Proof.
  unfold call.
  repeat (first [ apply keeps_bind; [| intro]
                | apply keeps_lift | apply keeps_get | apply keeps_ret
                | apply keeps_for_range; intros; apply keeps_block ]).
Qed.

(** Whatever its arguments, and whether it returns or raises, a forward
    call leaves the image size, the convolution kernels and biases, the
    pooling layers and the scale and offset of every batch-normalisation layer
    as they were: only moving statistics can change. *)
Theorem call_keeps_parameters
  (self : Prototypical) (support query : Tensor) (training : bool) :
  w (snd (call support query training self)) = w self
  /\ h (snd (call support query training self)) = h self
  /\ c (snd (call support query training self)) = c self
  /\ conv_layers (snd (call support query training self)) = conv_layers self
  /\ max_pool_layers (snd (call support query training self))
     = max_pool_layers self
  /\ map gamma (batch_norm_layers (snd (call support query training self)))
     = map gamma (batch_norm_layers self)
  /\ map beta (batch_norm_layers (snd (call support query training self)))
     = map beta (batch_norm_layers self).
Proof.
  pose proof (keeps_call support query training self) as Hkeep.
  unfold same_parameters in Hkeep. exact Hkeep.
Qed.

(** ** Training mode on the support path, inference mode on the query path *)

Lemma Forall2_scale_offset (bns1 bns2 : list BatchNormalization) :
  map gamma bns2 = map gamma bns1 -> map beta bns2 = map beta bns1 ->
  Forall2 (fun bn1 bn2 => gamma bn1 = gamma bn2 /\ beta bn1 = beta bn2) bns1 bns2.
Proof.
  revert bns2. induction bns1 as [|bn1 bns1 IH]; intros [|bn2 bns2] Hg Hb;
    simpl in *; try discriminate; constructor.
  - inversion Hg. inversion Hb. split; congruence.
  - inversion Hg. inversion Hb. apply IH; assumption.
Qed.

Lemma prototypes_same_parameters
  (self1 self2 : Prototypical) (support : Tensor) (n_class n_support : nat) :
  same_parameters self1 self2 ->
  prototypes self1 support n_class n_support
  = prototypes self2 support n_class n_support.
Proof.
  intros [Hw [Hh [Hc [Hcv [Hp [Hg Hb]]]]]].
  unfold prototypes, embedding_dim, support_pass.
  rewrite Hw, Hh, Hc, Hcv, Hp.
  rewrite (run_blocks_training_ignores_moving_statistics _ _
             (batch_norm_layers self1) (batch_norm_layers self2))
    by (apply Forall2_scale_offset; assumption).
  reflexivity.
Qed.

(** The prototypes are computed with the statistics of the support batch
    alone: two instances that differ only in the moving statistics of their
    batch-normalisation layers give the same prototypes. *)
Theorem prototypes_ignore_moving_statistics
  (self1 self2 : Prototypical) (support : Tensor) (n_class n_support : nat) :
  w self2 = w self1 -> h self2 = h self1 -> c self2 = c self1 ->
  conv_layers self2 = conv_layers self1 ->
  max_pool_layers self2 = max_pool_layers self1 ->
  map gamma (batch_norm_layers self2) = map gamma (batch_norm_layers self1) ->
  map beta (batch_norm_layers self2) = map beta (batch_norm_layers self1) ->
  prototypes self1 support n_class n_support
  = prototypes self2 support n_class n_support.
Proof.
  intros Hw Hh Hc Hcv Hp Hg Hb.
  apply prototypes_same_parameters. repeat split; assumption.
Qed.

Lemma prototypes_ignore_moving_statistics_witness :
  prototypes example_model example_support 1 1
  = prototypes example_model_moved example_support 1 1.
Proof.
  apply prototypes_ignore_moving_statistics; reflexivity.
Defined.

(** On the query path nothing is assigned and the images are embedded one by
    one: the embeddings of a batch are those of its parts, in order. *)
Theorem encoder_inference_image_by_image
  (self : Prototypical) (x1 x2 : list (list (list (list R)))) :
  wf_model self ->
  exists z1 z2,
    encoder false x1 self = (inr z1, self)
    /\ encoder false x2 self = (inr z2, self)
    /\ encoder false (x1 ++ x2) self = (inr (z1 ++ z2), self).
Proof.
  intros Hmodel.
  assert (Henc : forall x,
            encoder false x self
            = (inr (flatten_layer
                      (fst (run_blocks false (conv_layers self)
                              (max_pool_layers self) (batch_norm_layers self) x))),
               self)).
  { intros x. unfold encoder.
    rewrite (bind_ok _ _ self self self) by reflexivity.
    rewrite (bind_ok _ _ self _ _ (loop_run_blocks false x self Hmodel)).
    rewrite run_blocks_inference_state, with_batch_norm_layers_id. reflexivity. }
  eexists. eexists.
  split; [apply Henc|]. split; [apply Henc|].
  rewrite Henc, run_blocks_inference_image_by_image.
  unfold flatten_layer. rewrite map_app. reflexivity.
Qed.

Lemma encoder_inference_image_by_image_witness :
  exists z1 z2,
    encoder false [[[[1]]]] example_model = (inr z1, example_model)
    /\ encoder false [[[[2]]]] example_model = (inr z2, example_model)
    /\ encoder false ([[[[1]]]] ++ [[[[2]]]]) example_model
       = (inr (z1 ++ z2), example_model).
Proof.
  apply encoder_inference_image_by_image. split; reflexivity.
Defined.

(** ** The constructor *)

Lemma out_dims_init (g0 g1 g2 g3 : list (list (list (list R))))
  (n_support n_query a b ch : nat) :
  embedding_dim (init g0 g1 g2 g3 n_support n_query a b ch)
  = (a / 16 * (b / 16) * 64)%nat.
Proof.
  unfold embedding_dim, init, new_Conv2D.
  cbn [conv_layers w h c out_dims filters fst snd].
  rewrite !Nat.Div0.div_div. reflexivity.
Qed.

(** An instance built by [__init__] has its three lists of layers aligned
    and embeds every image in [(w / 16) * (h / 16) * 64] numbers; the
    [n_support] and [n_query] given to the constructor play no part, the
    episode brings its own. *)
Theorem init_embedding_dimension
  (g0 g1 g2 g3 : list (list (list (list R))))
  (init_support init_query a b ch : nat)
  (support query : Tensor) (n_class n_support n_query : nat) :
  episode_tensor (init g0 g1 g2 g3 init_support init_query a b ch)
    n_class n_support support ->
  episode_tensor (init g0 g1 g2 g3 init_support init_query a b ch)
    n_class n_query query ->
  wf_model (init g0 g1 g2 g3 init_support init_query a b ch)
  /\ length (prototypes (init g0 g1 g2 g3 init_support init_query a b ch)
               support n_class n_support) = n_class
  /\ Forall (fun r => length r = (a / 16 * (b / 16) * 64)%nat)
       (prototypes (init g0 g1 g2 g3 init_support init_query a b ch)
          support n_class n_support)
  /\ length (query_embeddings (init g0 g1 g2 g3 init_support init_query a b ch)
               support query n_class n_support n_query)
     = (n_class * n_query)%nat
  /\ Forall (fun r => length r = (a / 16 * (b / 16) * 64)%nat)
       (query_embeddings (init g0 g1 g2 g3 init_support init_query a b ch)
          support query n_class n_support n_query).
Proof.
  intros Hsupport Hquery.
  apply episode_tensor_accepted in Hquery.
  assert (Hmodel : wf_model (init g0 g1 g2 g3 init_support init_query a b ch))
    by (split; reflexivity).
  split; [exact Hmodel|].
  rewrite <- (out_dims_init g0 g1 g2 g3 init_support init_query a b ch).
  destruct (prototypes_shape
              (init g0 g1 g2 g3 init_support init_query a b ch)
              support n_class n_support) as [Hpl Hpr].
  destruct (query_embeddings_shape
              (init g0 g1 g2 g3 init_support init_query a b ch)
              support query n_class n_support n_query Hmodel Hquery)
    as [Hql Hqr].
  repeat split; assumption.
Qed.

Lemma init_embedding_dimension_witness :
  wf_model example_model
  /\ length (prototypes example_model example_support 1 1) = 1%nat
  /\ Forall (fun r => length r = (16 / 16 * (16 / 16) * 64)%nat)
       (prototypes example_model example_support 1 1)
  /\ length (query_embeddings example_model example_support example_query 1 1 1)
     = (1 * 1)%nat
  /\ Forall (fun r => length r = (16 / 16 * (16 / 16) * 64)%nat)
       (query_embeddings example_model example_support example_query 1 1 1).
Proof.
  apply (init_embedding_dimension (zero_kernel 1) (zero_kernel 64)
           (zero_kernel 64) (zero_kernel 64) 1 1 16 16 1
           example_support example_query 1 1 1);
    split; reflexivity.
Defined.

(** ** load *)

Lemma same_shape_kernel_refl (k : list (list (list (list R)))) :
  same_shape_list (same_shape_list (same_shape_list same_shape_vec)) k k = true.
Proof.
  apply same_shape_list_refl. intros a.
  apply same_shape_list_refl. intros b.
  apply same_shape_list_refl. apply same_shape_vec_refl.
Qed.

Lemma same_shape_bn_refl (bn : BatchNormalization) : same_shape_bn bn bn = true.
Proof. unfold same_shape_bn. rewrite !same_shape_vec_refl. reflexivity. Qed.

Lemma loaded_conv_layers_accept (wts convs : list Conv2D) :
  same_shape_list same_shape_conv wts convs = true ->
  same_shape_list same_shape_conv wts
    (map (fun lf => {| filters := filters (fst lf);
                       kernel := kernel (snd lf);
                       bias := bias (snd lf) |}) (combine convs wts)) = true
  /\ map (fun lf => {| filters := filters (fst lf);
                       kernel := kernel (snd lf);
                       bias := bias (snd lf) |})
         (combine (map (fun lf => {| filters := filters (fst lf);
                                     kernel := kernel (snd lf);
                                     bias := bias (snd lf) |})
                       (combine convs wts)) wts)
     = map (fun lf => {| filters := filters (fst lf);
                         kernel := kernel (snd lf);
                         bias := bias (snd lf) |}) (combine convs wts).
Proof.
  revert convs. induction wts as [|wt wts IH]; intros [|cv convs] H;
    simpl in *; try discriminate.
  - split; reflexivity.
  - apply andb_prop in H. destruct H as [_ H].
    destruct (IH convs H) as [H1 H2]. split.
    + rewrite H1. unfold same_shape_conv. simpl.
      rewrite same_shape_kernel_refl, same_shape_vec_refl. reflexivity.
    + rewrite H2. reflexivity.
Qed.

(** Once a file has been loaded, loading it again is accepted and changes
    nothing: the instance already holds the file's variables. *)
Theorem load_twice (model_path : string) (s s1 : Session) :
  load model_path s = (inr tt, s1) ->
  load model_path s1 = (inr tt, s1).
Proof.
  unfold load, load_weights, bind, get, put, raise.
  destruct s as [self fs]. cbn [fst snd].
  destruct (fs model_path) as [wts|] eqn:Hfile; [|discriminate].
  destruct (same_shape_list same_shape_conv (conv_weights wts) (conv_layers self))
    eqn:Hconv; [|discriminate].
  destruct (same_shape_list same_shape_bn (batch_norm_weights wts)
              (batch_norm_layers self)) eqn:Hbn; [|discriminate].
  cbn [andb]. intros H. inversion H; subst s1; clear H.
  cbn [fst snd w h c conv_layers max_pool_layers batch_norm_layers].
  rewrite Hfile.
  destruct (loaded_conv_layers_accept _ _ Hconv) as [H1 H2].
  rewrite H1, H2.
  rewrite (same_shape_list_refl same_shape_bn) by apply same_shape_bn_refl.
  reflexivity.
Qed.

Lemma load_twice_witness :
  load "model.h5"
    (example_model,
     write_file empty_files "model.h5" (get_weights example_model))
  = (inr tt,
     (example_model,
      write_file empty_files "model.h5" (get_weights example_model))).
Proof.
  apply (load_twice "model.h5"
           (example_model,
            write_file empty_files "model.h5" (get_weights example_model))).
  unfold load, load_weights, bind, get, put, raise. cbn [fst snd].
  unfold write_file at 1. rewrite String.eqb_refl.
  cbn [conv_weights batch_norm_weights get_weights].
  rewrite (same_shape_list_refl same_shape_conv)
    by (intros a; unfold same_shape_conv;
        rewrite same_shape_kernel_refl, same_shape_vec_refl; reflexivity).
  rewrite (same_shape_list_refl same_shape_bn) by apply same_shape_bn_refl.
  reflexivity.
Defined.

(** ** The zero network embeds all images alike *)







(** ** call: composition and ties *)

(** A forward call does not change the prototypes a later call computes
    from a support tensor: what it assigns, the moving statistics, is not
    read on the support path. *)
Theorem prototypes_after_call
  (self : Prototypical) (support query : Tensor) (training : bool)
  (support' : Tensor) (n_class n_support : nat) :
  prototypes (snd (call support query training self)) support' n_class n_support
  = prototypes self support' n_class n_support.
Proof.
  symmetry. apply prototypes_same_parameters.
  apply keeps_call.
Qed.






(** ** A network that tells a dark image from a bright one *)







(** *** The three layers on constant images *)











(** *** One block on two constant images *)



(** *** The four blocks on the dark and the bright image *)





(** *** Signs of the values *)










(** *** Prototypes, query embeddings and distances of the episode *)







